(** * KGEModel: scoring, training loss and evaluation ranking of [codes/model.py]

    A shallow embedding of the knowledge-graph embedding model.  Tensors of
    floats are idealised as nested lists of real numbers, Python exceptions as
    an error monad, and torch's autograd as a scalar interface with two
    instances: plain reals (values only) and dual numbers (value and
    tangent), where [detach] forgets the tangent. *)

From Stdlib Require Import Reals Lra Lia List String ZArith QArith.
From Stdlib Require Import Permutation Sorted Bool Arith.
Import ListNotations.

Local Open Scope R_scope.

(** ** Python exceptions and dynamic values *)

(** The exceptions the code and the libraries raise, by class.  A
    [RuntimeError] of torch carries the fixed text of the library's message:
    the sizes and values torch writes into it are left out. *)
Inductive exn : Type :=
| ValueError (msg : string)
| AttributeError (msg : string)
| TypeError (msg : string)
| IndexError (msg : string)
| RuntimeError (msg : string)
| ZeroDivisionError
| AssertionError.

Inductive result (A : Type) : Type :=
| Ok (a : A)
| Raise (e : exn).

Arguments Ok {A} a.
Arguments Raise {A} e.

Definition bind {A B : Type} (c : result A) (k : A -> result B) : result B :=
  match c with
  | Ok a => k a
  | Raise e => Raise e
  end.

Notation "x <- c ;; k" := (bind c (fun x => k))
  (at level 61, c at next level, right associativity).

Fixpoint mapM {A B : Type} (f : A -> result B) (xs : list A) : result (list B) :=
  match xs with
  | [] => Ok []
  | x :: xs' => y <- f x ;; ys <- mapM f xs' ;; Ok (y :: ys)
  end.

Fixpoint mapM2 {A B C : Type} (f : A -> B -> result C)
         (xs : list A) (ys : list B) : result (list C) :=
  match xs, ys with
  | x :: xs', y :: ys' => z <- f x y ;; zs <- mapM2 f xs' ys' ;; Ok (z :: zs)
  | _, _ => Ok []
  end.

(** ** Tensors

    The last axis is a [vec]; a [tensor3] is indexed batch, candidate,
    embedding component, as every operand of a scoring function is. *)

Definition vec := list R.
Definition tensor2 := list vec.
Definition tensor3 := list tensor2.
Definition itensor1 := list Z.
Definition itensor2 := list itensor1.

(** torch's broadcasting error; the two sizes and the axis the library names
    in it are left out. *)
Definition size_mismatch : exn :=
  RuntimeError "The size of tensor a must match the size of tensor b".

(** One axis of torch's broadcasting: equal sizes are paired, a size of one
    is repeated, anything else is a size error. *)
Definition broadcast {A B C : Type} (f : A -> B -> result C)
           (xs : list A) (ys : list B) : result (list C) :=
  if (List.length xs =? List.length ys)%nat then mapM2 f xs ys
  else match xs, ys with
       | [x], _ => mapM (f x) ys
       | _, [y] => mapM (fun x => f x y) xs
       | _, _ => Raise size_mismatch
       end.

Definition vop (f : R -> R -> R) : vec -> vec -> result vec :=
  broadcast (fun x y => Ok (f x y)).
Definition mop (f : R -> R -> R) : tensor2 -> tensor2 -> result tensor2 :=
  broadcast (vop f).
Definition top (f : R -> R -> R) : tensor3 -> tensor3 -> result tensor3 :=
  broadcast (mop f).

Definition tadd := top Rplus.
Definition tsub := top Rminus.
Definition tmul := top Rmult.

Definition tmap (f : R -> R) (t : tensor3) : tensor3 := map (map (map f)) t.

Definition vsum (v : vec) : R := fold_right Rplus 0 v.

(** [t.sum(dim = 2)] *)
Definition sum_dim2 (t : tensor3) : tensor2 := map (map vsum) t.

(** [torch.norm(t, p=1, dim=2)] *)
Definition norm1_dim2 (t : tensor3) : tensor2 :=
  map (map (fun v => vsum (map Rabs v))) t.

(** [torch.chunk(t, 2, dim=2)] unpacked into two names: the first chunk has
    ceil(d/2) components.  A width of one gives a single chunk and the
    unpacking fails; a width of zero gives two empty chunks. *)
Definition chunk_vec (v : vec) : vec * vec :=
  let k := Nat.div (List.length v + 1) 2 in (firstn k v, skipn k v).

Definition chunk2 (t : tensor3) : result (tensor3 * tensor3) :=
  if forallb (forallb (fun v => negb (List.length v =? 1)%nat)) t
  then Ok (map (map (fun v => fst (chunk_vec v))) t,
           map (map (fun v => snd (chunk_vec v))) t)
  else Raise (ValueError "not enough values to unpack (expected 2, got 1)").

(** [torch.stack([re, im], dim = 0).norm(dim = 0)]: stacking needs equal
    shapes; the 2-norm over the new axis is taken component by component. *)
Definition exact2 {A B C : Type} (f : A -> B -> result C)
           (xs : list A) (ys : list B) : result (list C) :=
  if (List.length xs =? List.length ys)%nat then mapM2 f xs ys
  else Raise (RuntimeError "stack expects each tensor to be equal size").

Definition stack_norm (re im : tensor3) : result tensor3 :=
  exact2 (exact2 (exact2 (fun x y => Ok (sqrt (x * x + y * y))))) re im.

(** [torch.index_select(table, dim=0, index=idx)] *)
Definition select_row (table : tensor2) (i : Z) : result vec :=
  if (i <? 0)%Z then Raise (IndexError "index out of range in self")
  else match nth_error table (Z.to_nat i) with
       | Some row => Ok row
       | None => Raise (IndexError "index out of range in self")
       end.

Definition index_select (table : tensor2) (idx : itensor1) : result tensor2 :=
  mapM (select_row table) idx.

(** [t[:, j]] on a two-dimensional integer tensor *)
Definition column (t : itensor2) (j : nat) : result itensor1 :=
  mapM (fun row => match nth_error row j with
                   | Some x => Ok x
                   | None => Raise (IndexError "index is out of bounds")
                   end) t.

(** [t.unsqueeze(1)] on a two-dimensional tensor *)
Definition unsqueeze1 (t : tensor2) : tensor3 := map (fun v => [v]) t.


Notation "' pat <- c ;; k" :=
  (bind c (fun x => match x with pat => k end))
  (at level 61, pat pattern, c at next level, right associativity).

Definition same_width (rows : tensor2) : bool :=
  match rows with
  | [] => true
  | v :: rest => forallb (fun w => (List.length w =? List.length v)%nat) rest
  end.

(** [torch.cat((a, b), 1)] on three-dimensional tensors: the batch sizes and
    the widths of the rows have to agree. *)
Definition cat1 (a b : tensor3) : result tensor3 :=
  exact2 (fun x y => if same_width (x ++ y) then Ok (x ++ y)
                     else Raise (RuntimeError "Sizes of tensors must match except in dimension 1"))
         a b.

(** Arguments of [forward] as Python passes them: a call site may hand over
    any object, and the body fails on the first attribute it lacks. *)
#[warnings="-register-all"]
Inductive pyval : Type :=
| PNone
| PStr (s : string)
| PTuple (items : list pyval)
| PIntTensor (t : itensor2).

Definition type_name (v : pyval) : string :=
  match v with
  | PNone => "NoneType"
  | PStr _ => "str"
  | PTuple _ => "tuple"
  | PIntTensor _ => "Tensor"
  end.

(** The tensor behind [v.size(...)] or [v.view(...)]: other objects have no
    such attribute. *)
Definition as_tensor (v : pyval) (attr : string) : result itensor2 :=
  match v with
  | PIntTensor t => Ok t
  | _ => Raise (AttributeError
                  (String.append "'" (String.append (type_name v)
                     (String.append "' object has no attribute '"
                        (String.append attr "'")))))
  end.

(** The tensor behind [v[:, j]]: a tuple or a string takes no pair of
    indices and [None] takes none at all. *)
Definition as_indexable (v : pyval) : result itensor2 :=
  match v with
  | PIntTensor t => Ok t
  | PNone => Raise (TypeError "'NoneType' object is not subscriptable")
  | PStr _ => Raise (TypeError "string indices must be integers")
  | PTuple _ => Raise (TypeError "tuple indices must be integers or slices, not tuple")
  end.

(** ** The model *)

Record KGEModel : Type := {
  model_name : string;
  nentity : Z;
  nrelation : Z;
  ntem : Z;
  hidden_dim : Z;
  epsilon : R;
  lstm : tensor3 -> result tensor3;
  gamma : R;
  embedding_range : R;
  entity_dim : Z;
  relation_dim : Z;
  tem_dim : Z;
  entity_embedding : tensor2;
  relation_embedding : tensor2;
  tem_embedding : tensor2;
  modulus : option R
}.

Definition supported_models : list string :=
  ["TATransE"; "TransE"; "TADistMult"; "DistMult"; "ComplEx"; "RotatE"; "pRotatE"]%string.

Definition name_in (name : string) (names : list string) : bool :=
  existsb (String.eqb name) names.

Definition not_supported (what name : string) : exn :=
  ValueError (String.append what (String.append " " (String.append name " not supported"))).

Section Construction.

(** [LSTMModel(hidden_dim, n_layer)] of the LSTMLinear module, which is not
    part of these sources: building it gives the encoder or fails. *)
Variable LSTMModel : Z -> Z -> result (tensor3 -> result tensor3).

(** The outcome of the k-th [nn.init.uniform_] call of the constructor on a
    table of the given shape and range. *)
Variable uniform_ : nat -> Z -> Z -> R -> R -> tensor2.

(** [nn.Parameter(torch.zeros(rows, cols))] filled by
    [nn.init.uniform_(tensor, a = -range, b = range)]: the allocation refuses
    a negative size, and the initialisation refuses bounds with [a > b],
    whatever the size of the tensor. *)
Definition new_table (k : nat) (rows cols : Z) (range : R) : result tensor2 :=
  if ((rows <? 0) || (cols <? 0))%Z
  then Raise (RuntimeError "Trying to create tensor with negative dimension")
  else if Rle_dec (- range) range
  then Ok (uniform_ k rows cols (- range) range)
  else Raise (RuntimeError "uniform_ expects to return a [from, to) range").

Definition __init__ (model_name : string) (nentity nrelation hidden_dim : Z)
           (gamma : R)
           (double_entity_embedding double_relation_embedding
            double_tem_embedding : bool) : result KGEModel :=
  let ntem := 32%Z in
  let epsilon := 2.0 in
  lstm <- LSTMModel hidden_dim 1 ;;
  embedding_range <-
    (if (hidden_dim =? 0)%Z then Raise ZeroDivisionError
     else Ok ((gamma + epsilon) / IZR hidden_dim)) ;;
  let entity_dim :=
    if double_entity_embedding then (hidden_dim * 2)%Z else hidden_dim in
  let relation_dim :=
    if double_relation_embedding then (hidden_dim * 2)%Z else hidden_dim in
  let tem_dim :=
    if double_tem_embedding then (hidden_dim * 2)%Z else hidden_dim in
  entity_embedding <- new_table 0 nentity entity_dim embedding_range ;;
  relation_embedding <- new_table 1 nrelation relation_dim embedding_range ;;
  tem_embedding <- new_table 2 ntem tem_dim embedding_range ;;
  let modulus :=
    if String.eqb model_name "pRotatE" then Some (0.5 * embedding_range)
    else None in
  if negb (name_in model_name supported_models)
  then Raise (not_supported "model" model_name)
  else if String.eqb model_name "RotatE"
          && (negb double_entity_embedding || double_relation_embedding)
  then Raise (ValueError "RotatE should use --double_entity_embedding")
  else if String.eqb model_name "ComplEx"
          && (negb double_entity_embedding || negb double_relation_embedding)
  then Raise (ValueError
                "ComplEx should use --double_entity_embedding and --double_relation_embedding")
  else Ok {| model_name := model_name; nentity := nentity;
             nrelation := nrelation; ntem := ntem; hidden_dim := hidden_dim;
             epsilon := epsilon; lstm := lstm; gamma := gamma;
             embedding_range := embedding_range; entity_dim := entity_dim;
             relation_dim := relation_dim; tem_dim := tem_dim;
             entity_embedding := entity_embedding;
             relation_embedding := relation_embedding;
             tem_embedding := tem_embedding; modulus := modulus |}.

End Construction.

(** ** Scoring functions *)

Definition is_head_batch (mode : string) : bool := String.eqb mode "head-batch".

(** [self.gamma.item() - t] *)
Definition gamma_minus (self : KGEModel) (t : tensor2) : tensor2 :=
  map (map (fun x => gamma self - x)) t.

Definition TransE (self : KGEModel) (head relation tail : tensor3)
           (mode : string) : result tensor2 :=
  score <- (if is_head_batch mode
            then d <- tsub relation tail ;; tadd head d
            else s <- tadd head relation ;; tsub s tail) ;;
  Ok (gamma_minus self (norm1_dim2 score)).

Definition DistMult (self : KGEModel) (head relation tail : tensor3)
           (mode : string) : result tensor2 :=
  score <- (if is_head_batch mode
            then p <- tmul relation tail ;; tmul head p
            else p <- tmul head relation ;; tmul p tail) ;;
  Ok (sum_dim2 score).

Definition get_rseq (self : KGEModel) (pos_r_e : tensor3)
           (pos_tem_e : option tensor3) : result tensor2 :=
  match pos_tem_e with
  | None => Raise (AttributeError "'NoneType' object has no attribute 'shape'")
  | Some tem =>
      pos_seq_e <- cat1 pos_r_e tem ;;
      hidden_tem <- lstm self pos_seq_e ;;
      match hidden_tem with
      | layer0 :: _ => Ok layer0
      | [] => Raise (IndexError "index 0 is out of bounds for dimension 0 with size 0")
      end
  end.

Definition TATransE (self : KGEModel) (head relation : tensor3)
           (tem : option tensor3) (tail : tensor3) (mode : string)
  : result tensor2 :=
  rseq <- get_rseq self relation tem ;;
  let rseq := unsqueeze1 rseq in
  score <- (if is_head_batch mode
            then d <- tsub rseq tail ;; tadd head d
            else s <- tadd head rseq ;; tsub s tail) ;;
  Ok (gamma_minus self (norm1_dim2 score)).

Definition TADistMult (self : KGEModel) (head relation : tensor3)
           (tem : option tensor3) (tail : tensor3) (mode : string)
  : result tensor2 :=
  rseq <- get_rseq self relation tem ;;
  let rseq := unsqueeze1 rseq in
  score <- (if is_head_batch mode
            then p <- tmul rseq tail ;; tmul head p
            else p <- tmul head rseq ;; tmul p tail) ;;
  Ok (sum_dim2 score).

Definition ComplEx (self : KGEModel) (head relation tail : tensor3)
           (mode : string) : result tensor2 :=
  '(re_head, im_head) <- chunk2 head ;;
  '(re_relation, im_relation) <- chunk2 relation ;;
  '(re_tail, im_tail) <- chunk2 tail ;;
  score <-
    (if is_head_batch mode
     then
       a <- tmul re_relation re_tail ;; b <- tmul im_relation im_tail ;;
       re_score <- tadd a b ;;
       c <- tmul re_relation im_tail ;; d <- tmul im_relation re_tail ;;
       im_score <- tsub c d ;;
       e <- tmul re_head re_score ;; f <- tmul im_head im_score ;;
       tadd e f
     else
       a <- tmul re_head re_relation ;; b <- tmul im_head im_relation ;;
       re_score <- tsub a b ;;
       c <- tmul re_head im_relation ;; d <- tmul im_head re_relation ;;
       im_score <- tadd c d ;;
       e <- tmul re_score re_tail ;; f <- tmul im_score im_tail ;;
       tadd e f) ;;
  Ok (sum_dim2 score).

(** The constant [pi] of [RotatE].  The literal 3.14159265358979323846 of
    the source agrees with pi in every digit it gives and denotes the float
    nearest to pi; where floats are read as reals it is read as pi. *)
Definition RotatE_pi : R := PI.

Definition RotatE (self : KGEModel) (head relation tail : tensor3)
           (mode : string) : result tensor2 :=
  let pi := RotatE_pi in
  '(re_head, im_head) <- chunk2 head ;;
  '(re_tail, im_tail) <- chunk2 tail ;;
  let phase_relation := tmap (fun x => x / (embedding_range self / pi)) relation in
  let re_relation := tmap cos phase_relation in
  let im_relation := tmap sin phase_relation in
  '(re_score, im_score) <-
    (if is_head_batch mode
     then
       a <- tmul re_relation re_tail ;; b <- tmul im_relation im_tail ;;
       re_score <- tadd a b ;;
       c <- tmul re_relation im_tail ;; d <- tmul im_relation re_tail ;;
       im_score <- tsub c d ;;
       re_score <- tsub re_score re_head ;;
       im_score <- tsub im_score im_head ;;
       Ok (re_score, im_score)
     else
       a <- tmul re_head re_relation ;; b <- tmul im_head im_relation ;;
       re_score <- tsub a b ;;
       c <- tmul re_head im_relation ;; d <- tmul im_head re_relation ;;
       im_score <- tadd c d ;;
       re_score <- tsub re_score re_tail ;;
       im_score <- tsub im_score im_tail ;;
       Ok (re_score, im_score)) ;;
  score <- stack_norm re_score im_score ;;
  Ok (gamma_minus self (sum_dim2 score)).

(** The constant [pi] of [pRotatE], as the source spells it: the literal
    3.14159262358979323846 leaves pi at the eighth decimal, a difference a
    float holds, and is kept as the number it gives. *)
Definition pRotatE_pi : R := 3.14159262358979323846.

Definition pRotatE (self : KGEModel) (head relation tail : tensor3)
           (mode : string) : result tensor2 :=
  let pi := pRotatE_pi in
  let phase_head := tmap (fun x => x / (embedding_range self / pi)) head in
  let phase_relation := tmap (fun x => x / (embedding_range self / pi)) relation in
  let phase_tail := tmap (fun x => x / (embedding_range self / pi)) tail in
  score <- (if is_head_batch mode
            then d <- tsub phase_relation phase_tail ;; tadd phase_head d
            else s <- tadd phase_head phase_relation ;; tsub s phase_tail) ;;
  let score := tmap Rabs (tmap sin score) in
  match modulus self with
  | None => Raise (AttributeError "'KGEModel' object has no attribute 'modulus'")
  | Some m => Ok (map (map (fun x => gamma self - x * m)) (sum_dim2 score))
  end.

(** ** forward *)

(** The loop of [forward] that gathers the time-token embeddings of every
    batch element and concatenates them; [None] when the batch is empty. *)
Definition gather_tem (self : KGEModel) (sample_tem : pyval)
  : result (option tensor3) :=
  rows <- as_tensor sample_tem "size" ;;
  tem <- mapM (index_select (tem_embedding self)) rows ;;
  Ok (match tem with [] => None | _ => Some tem end).

(** [index_select(table, 0, part.view(-1)).view(batch_size, n, -1)] *)
Definition gather_candidates (table : tensor2) (part : itensor2)
  : result tensor3 :=
  rows <- mapM (index_select table) part ;;
  if forallb (fun r => negb (List.length r =? 0)%nat) part && negb (List.length part =? 0)%nat
  then Ok rows
  else Raise (RuntimeError "cannot reshape tensor of 0 elements into shape [0, 0, -1]").

(** The call [model_func[self.model_name](head, relation, tem, tail, mode)]:
    five arguments go to whichever method the name selects. *)
Definition takes_four (name : string) : exn :=
  TypeError (String.append name "() takes 5 positional arguments but 6 were given").

Definition model_func (self : KGEModel) (head relation : tensor3)
           (tem : option tensor3) (tail : tensor3) (mode : string)
  : result tensor2 :=
  let name := model_name self in
  if String.eqb name "TATransE" then TATransE self head relation tem tail mode
  else if String.eqb name "TransE" then Raise (takes_four name)
  else if String.eqb name "TADistMult" then TADistMult self head relation tem tail mode
  else if String.eqb name "DistMult" then Raise (takes_four name)
  else if String.eqb name "ComplEx" then Raise (takes_four name)
  else if String.eqb name "RotatE" then Raise (takes_four name)
  else if String.eqb name "pRotatE" then Raise (takes_four name)
  else Raise (not_supported "model" name).

Definition forward (self : KGEModel) (sample_triple sample_tem : pyval)
           (negative_sample : pyval) (mode : string) : result tensor2 :=
  '(head, relation, tem, tail) <-
    (if String.eqb mode "single" then
       triple <- as_tensor sample_triple "size" ;;
       h <- column triple 0 ;;
       head <- index_select (entity_embedding self) h ;;
       r <- column triple 1 ;;
       relation <- index_select (relation_embedding self) r ;;
       tem <- gather_tem self sample_tem ;;
       t <- column triple 2 ;;
       tail <- index_select (entity_embedding self) t ;;
       Ok (unsqueeze1 head, unsqueeze1 relation, tem, unsqueeze1 tail)
     else if String.eqb mode "head-batch" then
       let tail_part := sample_triple in
       let head_part := negative_sample in
       candidates <- as_tensor head_part "size" ;;
       head <- gather_candidates (entity_embedding self) candidates ;;
       triple <- as_indexable tail_part ;;
       r <- column triple 1 ;;
       relation <- index_select (relation_embedding self) r ;;
       tem <- gather_tem self sample_tem ;;
       t <- column triple 2 ;;
       tail <- index_select (entity_embedding self) t ;;
       Ok (head, unsqueeze1 relation, tem, unsqueeze1 tail)
     else if String.eqb mode "tail-batch" then
       let head_part := sample_triple in
       let tail_part := negative_sample in
       candidates <- as_tensor tail_part "size" ;;
       triple <- as_indexable head_part ;;
       h <- column triple 0 ;;
       head <- index_select (entity_embedding self) h ;;
       r <- column triple 1 ;;
       relation <- index_select (relation_embedding self) r ;;
       tem <- gather_tem self sample_tem ;;
       tail <- gather_candidates (entity_embedding self) candidates ;;
       Ok (unsqueeze1 head, unsqueeze1 relation, tem, tail)
     else Raise (not_supported "mode" mode)) ;;
  model_func self head relation tem tail mode.

(** ** Autograd scalars

    What [train_step] asks of the entries of a score tensor.  [detach] is the
    only operation that tells a tensor with a gradient from its value. *)

Class Scalar (T : Type) : Type := {
  of_R : R -> T;
  sadd : T -> T -> T;
  smul : T -> T -> T;
  sdiv : T -> T -> T;
  sneg : T -> T;
  sexp : T -> T;
  logsigmoid : T -> T;
  detach : T -> T
}.

(** Values only: the forward pass. *)
#[export] Instance R_scalar : Scalar R := {
  of_R := fun x => x;
  sadd := Rplus;
  smul := Rmult;
  sdiv := Rdiv;
  sneg := Ropp;
  sexp := exp;
  logsigmoid := fun x => - ln (1 + exp (- x));
  detach := fun x => x
}.

(** A value with its derivative along one direction of the parameters. *)
Record dual : Type := Dual { primal : R; tangent : R }.

#[export] Instance dual_scalar : Scalar dual := {
  of_R := fun x => Dual x 0;
  sadd := fun a b => Dual (primal a + primal b) (tangent a + tangent b);
  smul := fun a b => Dual (primal a * primal b)
                          (tangent a * primal b + primal a * tangent b);
  sdiv := fun a b => Dual (primal a / primal b)
                          ((tangent a * primal b - primal a * tangent b)
                           / (primal b * primal b));
  sneg := fun a => Dual (- primal a) (- tangent a);
  sexp := fun a => Dual (exp (primal a)) (tangent a * exp (primal a));
  logsigmoid := fun a => Dual (- ln (1 + exp (- primal a)))
                              (tangent a / (1 + exp (primal a)));
  detach := fun a => Dual (primal a) 0
}.

Record Args : Type := {
  cuda : bool;
  negative_adversarial_sampling : bool;
  adversarial_temperature : R;
  uni_weight : bool;
  regularization : R;
  test_log_steps : Z
}.

Definition zip_with {A B C : Type} (f : A -> B -> C) (xs : list A) (ys : list B)
  : list C :=
  map (fun p => f (fst p) (snd p)) (combine xs ys).

Section NegativeReduction.

Context {T : Type} `{Scalar T}.

Definition ssum (xs : list T) : T := fold_right sadd (of_R 0) xs.

(** [xs.mean()] along one axis *)
Definition smean (xs : list T) : T :=
  sdiv (ssum xs) (of_R (INR (List.length xs))).

(** [F.softmax(row, dim = 1)] of one row *)
Definition softmax (row : list T) : list T :=
  let e := map sexp row in
  map (fun x => sdiv x (ssum e)) e.

(** Lines 372-377 of [train_step]: one number per example out of the scores
    of its negatives. *)
Definition reduce_negative (args : Args) (negative_score : list (list T))
  : list T :=
  if negative_adversarial_sampling args
  then map (fun row =>
              ssum (zip_with smul
                      (map detach
                         (softmax (map (fun s => smul s (of_R (adversarial_temperature args))) row)))
                      (map (fun s => logsigmoid (sneg s)) row)))
           negative_score
  else map (fun row => smean (map (fun s => logsigmoid (sneg s)) row))
           negative_score.

End NegativeReduction.

(** ** train_step *)

Record TrainBatch : Type := {
  positive_sample_triple : itensor2;
  positive_sample_tem : itensor2;
  train_negative_sample : itensor2;
  subsampling_weight : vec;
  train_mode : string
}.

Record TrainLog : Type := {
  regularization_log : option R;
  positive_sample_loss : R;
  negative_sample_loss : R;
  loss : R
}.

(** [y ** (1/3)] for the sum of cubed magnitudes, which is never negative. *)
Definition root3 (y : R) : R :=
  if Rlt_dec 0 y then Rpower y (/ 3) else 0.

(** [t.norm(p = 3)] over all the entries of [t] *)
Definition norm_p3 (entries : list R) : R :=
  root3 (vsum (map (fun x => Rabs x ^ 3) entries)).

(** [t.squeeze(dim = 1)] of a tensor with one column, which is what [forward]
    returns in 'single' mode. *)
Definition squeeze1 (t : tensor2) : vec := List.concat t.

(** [- (subsampling_weight * score).sum() / subsampling_weight.sum()] *)
Definition weighted_loss (subsampling_weight score : vec) : result R :=
  p <- vop Rmult subsampling_weight score ;;
  Ok (- vsum p / vsum subsampling_weight).

(** Lines 372-401: the loss out of the two score tensors. *)
Definition train_step_loss (model : KGEModel) (args : Args)
           (negative_score positive_score : tensor2)
           (subsampling_weight : vec) : result TrainLog :=
  let negative_score := reduce_negative args negative_score in
  let positive_score := squeeze1 (map (map logsigmoid) positive_score) in
  '(positive_sample_loss, negative_sample_loss) <-
    (if uni_weight args
     then Ok (smean positive_score, smean negative_score)
     else p <- weighted_loss subsampling_weight positive_score ;;
          n <- weighted_loss subsampling_weight negative_score ;;
          Ok (p, n)) ;;
  let loss := (positive_sample_loss + negative_sample_loss) / 2 in
  if Req_dec_T (regularization args) 0.0
  then Ok {| regularization_log := None;
             positive_sample_loss := positive_sample_loss;
             negative_sample_loss := negative_sample_loss;
             loss := loss |}
  else
    let regularization :=
      regularization args
      * (norm_p3 (List.concat (entity_embedding model)) ^ 3
         + norm_p3 [norm_p3 (List.concat (relation_embedding model))] ^ 3) in
    Ok {| regularization_log := Some regularization;
          positive_sample_loss := positive_sample_loss;
          negative_sample_loss := negative_sample_loss;
          loss := loss + regularization |}.

(** The forward half of [train_step]; the backward pass and the optimizer
    step act on the parameters and leave the returned log as it is. *)
Definition train_step (model : KGEModel) (args : Args) (batch : TrainBatch)
  : result TrainLog :=
  let positive := PIntTensor (positive_sample_triple batch) in
  let tem := PIntTensor (positive_sample_tem batch) in
  negative_score <-
    forward model positive tem (PIntTensor (train_negative_sample batch))
            (train_mode batch) ;;
  positive_score <- forward model positive tem PNone "single" ;;
  train_step_loss model args negative_score positive_score
                  (subsampling_weight batch).

(** ** test_step *)

(** One batch as the evaluation data loader yields it. *)
Record TestBatch : Type := {
  positive_sample : itensor2;
  negative_sample : itensor2;
  filter_bias : tensor2;
  mode : string
}.

(** One entry of [logs]; the same record holds the averaged metrics. *)
Record Log : Type := {
  MRR : Q;
  MR : Q;
  HITS_1 : Q;
  HITS_3 : Q;
  HITS_10 : Q
}.

(** [mask.nonzero()]: the positions that hold [true] *)
Fixpoint nonzero_from (i : nat) (mask : list bool) : list nat :=
  match mask with
  | [] => []
  | b :: rest => if b then i :: nonzero_from (S i) rest
                 else nonzero_from (S i) rest
  end.

Definition nonzero (mask : list bool) : list nat := nonzero_from 0 mask.

(** The body of the loop over the examples of a batch, lines 484-495. *)
Definition rank_log (argsort_i : list nat) (positive_arg_i : Z) : result Log :=
  let ranking := nonzero (map (fun e => (Z.of_nat e =? positive_arg_i)%Z) argsort_i) in
  match ranking with
  | [item] =>
      let ranking := (1 + item)%nat in
      Ok {| MRR := 1 / inject_Z (Z.of_nat ranking);
            MR := inject_Z (Z.of_nat ranking);
            HITS_1 := if (ranking <=? 1)%nat then 1 else 0;
            HITS_3 := if (ranking <=? 3)%nat then 1 else 0;
            HITS_10 := if (ranking <=? 10)%nat then 1 else 0 |}%Q
  | _ => Raise AssertionError
  end.

Definition item_at {A : Type} (xs : list A) (i : nat) : result A :=
  match nth_error xs i with
  | Some x => Ok x
  | None => Raise (IndexError "index is out of bounds")
  end.

Definition batch_logs (argsort : list (list nat)) (positive_arg : itensor1)
           (batch_size : nat) : result (list Log) :=
  mapM (fun i => row <- item_at argsort i ;;
                 p <- item_at positive_arg i ;;
                 rank_log row p)
       (seq 0 batch_size).

(** [score += filter_bias]: the sum is broadcast and has to fit [score]. *)
Definition iadd (score bias : tensor2) : result tensor2 :=
  r <- mop Rplus score bias ;;
  if list_eq_dec Nat.eq_dec (map (@List.length R) r) (map (@List.length R) score)
  then Ok r
  else Raise (RuntimeError "output with shape doesn't match the broadcast shape").

(** [sum(xs) / len(xs)] as Python folds it, from 0 and from the left *)
Definition py_mean (xs : list Q) : Q :=
  (fold_left Qplus xs 0 / inject_Z (Z.of_nat (List.length xs)))%Q.

(** Lines 502-506. *)
Definition metrics (logs : list Log) : result Log :=
  match logs with
  | [] => Raise (IndexError "list index out of range")
  | _ => Ok {| MRR := py_mean (map MRR logs);
               MR := py_mean (map MR logs);
               HITS_1 := py_mean (map HITS_1 logs);
               HITS_3 := py_mean (map HITS_3 logs);
               HITS_10 := py_mean (map HITS_10 logs) |}
  end.

Fixpoint foldM {A B : Type} (f : A -> B -> result A) (a : A) (xs : list B)
  : result A :=
  match xs with
  | [] => Ok a
  | x :: rest => a' <- f a x ;; foldM f a' rest
  end.

(** Lines 475-480: the true entity of every example, by the mode of the
    batch. *)
Definition positive_args (batch : TestBatch) : result itensor1 :=
  if String.eqb (mode batch) "head-batch" then column (positive_sample batch) 0
  else if String.eqb (mode batch) "tail-batch" then column (positive_sample batch) 2
  else Raise (not_supported "mode" (mode batch)).

Section Evaluation.

(** [torch.argsort(row, descending = True)] on one row of scores.  The
    library is called without [stable = True]. *)
Variable argsort_descending : vec -> list nat.

(** How a batch is scored: line 469. *)
Variable scoring : TestBatch -> result tensor2.

(** The body of the loop over the batches, lines 462-500; the state is
    [logs] and [step]. *)
Definition test_batch (args : Args) (state : list Log * Z) (batch : TestBatch)
  : result (list Log * Z) :=
  let '(logs, step) := state in
  let batch_size := List.length (positive_sample batch) in
  score <- scoring batch ;;
  score <- iadd score (filter_bias batch) ;;
  let argsort := map argsort_descending score in
  positive_arg <- positive_args batch ;;
  new_logs <- batch_logs argsort positive_arg batch_size ;;
  if (test_log_steps args =? 0)%Z then Raise ZeroDivisionError
  else Ok (logs ++ new_logs, (step + 1)%Z).

Definition test_step_with (args : Args)
           (test_dataloader_head test_dataloader_tail : list TestBatch)
  : result Log :=
  let test_dataset_list := [test_dataloader_head; test_dataloader_tail] in
  '(logs, _) <- foldM (foldM (test_batch args)) ([], 0%Z) test_dataset_list ;;
  metrics logs.

End Evaluation.

(** Line 469 as written: [model((positive_sample, negative_sample), mode)].
    The two positional arguments land in [sample_triple] and [sample_tem];
    [negative_sample] and [mode] keep their defaults. *)
Definition test_step_score (model : KGEModel) (batch : TestBatch)
  : result tensor2 :=
  forward model
          (PTuple [PIntTensor (positive_sample batch);
                   PIntTensor (negative_sample batch)])
          (PStr (mode batch)) PNone "single".

Definition test_step (argsort_descending : vec -> list nat)
           (model : KGEModel) (args : Args)
           (test_dataloader_head test_dataloader_tail : list TestBatch)
  : result Log :=
  test_step_with argsort_descending (test_step_score model) args
                 test_dataloader_head test_dataloader_tail.

(** ** Specification-side definitions *)

(** A construction request the constructor has to refuse, in the words of
    the specification: a name that is none of the seven identifiers, RotatE
    without double-width entities or with double-width relations, ComplEx
    without both double widths. *)
Definition config_violation (name : string)
           (double_entity_embedding double_relation_embedding : bool) : Prop :=
  (name <> "TATransE" /\ name <> "TransE" /\ name <> "TADistMult"
   /\ name <> "DistMult" /\ name <> "ComplEx" /\ name <> "RotatE"
   /\ name <> "pRotatE")%string
  \/ (name = "RotatE"%string
      /\ (double_entity_embedding = false \/ double_relation_embedding = true))
  \/ (name = "ComplEx"%string
      /\ (double_entity_embedding = false \/ double_relation_embedding = false)).

(** A small model for concrete runs: four entities and two relations of
    width two, gamma 6, hence an embedding range of 8 / 1. *)
Definition example_model : KGEModel :=
  {| model_name := "RotatE"; nentity := 4; nrelation := 2; ntem := 32;
     hidden_dim := 1; epsilon := 2.0; lstm := fun t => Ok t;
     gamma := 6; embedding_range := (6 + 2.0) / 1;
     entity_dim := 2; relation_dim := 1; tem_dim := 1;
     entity_embedding := [[1; 0]; [0; 1]; [1; 1]; [0; 0]];
     relation_embedding := [[0]; [1]];
     tem_embedding := repeat [0] 32;
     modulus := None |}.

(** [args] with another regularization coefficient *)
Definition with_regularization (args : Args) (coefficient : R) : Args :=
  {| cuda := cuda args;
     negative_adversarial_sampling := negative_adversarial_sampling args;
     adversarial_temperature := adversarial_temperature args;
     uni_weight := uni_weight args;
     regularization := coefficient;
     test_log_steps := test_log_steps args |}.

(** [args] with another averaging policy *)
Definition with_uni_weight (args : Args) (flag : bool) : Args :=
  {| cuda := cuda args;
     negative_adversarial_sampling := negative_adversarial_sampling args;
     adversarial_temperature := adversarial_temperature args;
     uni_weight := flag;
     regularization := regularization args;
     test_log_steps := test_log_steps args |}.

Definition result_map {A B : Type} (g : A -> B) (c : result A) : result B :=
  match c with
  | Ok a => Ok (g a)
  | Raise e => Raise e
  end.

(** The 3-norm in the words of the specification: [n] is the 3-norm of
    [entries] when it is the number, not negative, whose cube is the sum of
    the cubed magnitudes of the entries. *)
Definition cubic_norm_of (entries : list R) (n : R) : Prop :=
  0 <= n /\ n ^ 3 = vsum (map (fun x => Rabs x ^ 3) entries).


Definition example_args : Args :=
  {| cuda := false; negative_adversarial_sampling := false;
     adversarial_temperature := 1; uni_weight := true;
     regularization := 0; test_log_steps := 1 |}.

(** The specification's words for the negative reduction: log-sigmoid, its
    derivative, and the softmax weights of one row of scores at a
    temperature. *)
Definition log_sigmoid (x : R) : R := - ln (1 + exp (- x)).

Definition log_sigmoid_slope (x : R) : R := / (1 + exp x).

Definition softmax_weights (temperature : R) (row : list R) : list R :=
  map (fun s => exp (s * temperature)
                / vsum (map (fun u => exp (u * temperature)) row)) row.

(** Value and tangent of the self-adversarial reduction of one row when the
    weights are constants. *)
Definition spec_adversarial (temperature : R) (row : list dual) : dual :=
  let weights := softmax_weights temperature (map primal row) in
  Dual (vsum (zip_with Rmult weights
                (map (fun s => log_sigmoid (- primal s)) row)))
       (vsum (zip_with Rmult weights
                (map (fun s => - tangent s * log_sigmoid_slope (- primal s)) row))).

(** Value and tangent of the plain mean of log-sigmoid(-score) over a row. *)
Definition spec_plain (row : list dual) : dual :=
  Dual (vsum (map (fun s => log_sigmoid (- primal s)) row)
        / INR (List.length row))
       (vsum (map (fun s => - tangent s * log_sigmoid_slope (- primal s)) row)
        / INR (List.length row)).

(** A tensor with one function applied to one component. *)
Fixpoint update_nth {A : Type} (n : nat) (g : A -> A) (l : list A) : list A :=
  match l, n with
  | [], _ => []
  | x :: rest, O => g x :: rest
  | x :: rest, S n' => x :: update_nth n' g rest
  end.

Definition update_component (b j k : nat) (g : R -> R) (t : tensor3) : tensor3 :=
  update_nth b (update_nth j (update_nth k g)) t.

(** What the documentation of [torch.argsort(row, descending = True)]
    promises of its result: a permutation of the indices of the row along
    which the scores do not increase.  Nothing is said of equal scores. *)
Definition argsort_contract (score : vec) (order : list nat) : Prop :=
  Permutation order (seq 0 (List.length score))
  /\ StronglySorted (fun a b => nth b score 0 <= nth a score 0) order.

(** The tie rule of the specification: of two entities with the same score
    the one with the smaller id comes first. *)
Definition ties_by_entity_id (score : vec) (order : list nat) : Prop :=
  forall i j a b : nat,
    (i < j)%nat ->
    nth_error order i = Some a -> nth_error order j = Some b ->
    nth a score 0 = nth b score 0 -> (a < b)%nat.

(** [rank] is the 1-indexed position of the true entity [p] in [order]. *)
Definition ranked_at (order : list nat) (p : Z) (rank : nat) : Prop :=
  NoDup order /\ (0 <= p)%Z /\ (1 <= rank)%nat
  /\ nth_error order (rank - 1) = Some (Z.to_nat p).

(** The per-example metrics of the specification, out of the rank. *)
Definition spec_example_metrics (rank : nat) : Log :=
  {| MRR := 1 / inject_Z (Z.of_nat rank);
     MR := inject_Z (Z.of_nat rank);
     HITS_1 := if (rank <=? 1)%nat then 1 else 0;
     HITS_3 := if (rank <=? 3)%nat then 1 else 0;
     HITS_10 := if (rank <=? 10)%nat then 1 else 0 |}%Q.

Definition arithmetic_mean (xs : list Q) : Q :=
  (fold_right Qplus 0 xs / inject_Z (Z.of_nat (List.length xs)))%Q.

(** A batch whose examples have the given ranks: it is scored, the bias
    fits, and every true entity sits at its rank in the order of its row. *)
Definition batch_ranked (argsort_descending : vec -> list nat)
           (scoring : TestBatch -> result tensor2)
           (batch : TestBatch) (ranks : list nat) : Prop :=
  exists (score biased : tensor2) (positive_arg : itensor1),
    scoring batch = Ok score
    /\ iadd score (filter_bias batch) = Ok biased
    /\ positive_args batch = Ok positive_arg
    /\ List.length biased = List.length (positive_sample batch)
    /\ Forall2 (fun row_p rank =>
                  ranked_at (argsort_descending (fst row_p)) (snd row_p) rank)
               (combine biased positive_arg) ranks.

(** Two evaluation batches on three entities for the triple (0, 0, 1), one
    per corruption direction. *)
Definition example_head_batch : TestBatch :=
  {| positive_sample := [[0; 0; 1]%Z]; negative_sample := [[0; 1; 2]%Z];
     filter_bias := [[0; 0; 0]]; mode := "head-batch" |}.

Definition example_tail_batch : TestBatch :=
  {| positive_sample := [[0; 0; 1]%Z]; negative_sample := [[0; 1; 2]%Z];
     filter_bias := [[0; 0; 0]]; mode := "tail-batch" |}.

(** A tensor with a single entry along its second axis. *)
Definition one_candidate {A : Type} (rows : list (list A)) : Prop :=
  Forall (fun row => List.length row = 1%nat) rows.

(** The models whose scoring method takes four tensors. *)
Definition static_models : list string :=
  ["TransE"; "DistMult"; "ComplEx"; "RotatE"; "pRotatE"]%string.

(** An index the table holds. *)
Definition in_table (table : tensor2) (i : Z) : bool :=
  ((0 <=? i) && (i <? Z.of_nat (List.length table)))%Z.

(** A stand-in for the encoder in concrete runs: one layer whose hidden
    state is the last step of each sequence. *)
Definition example_encoder (t : tensor3) : result tensor3 :=
  Ok [map (fun steps => last steps []) t].

(** A temporal model for concrete runs: three entities, one relation and
    32 time tokens of width two. *)
Definition example_ta_model : KGEModel :=
  {| model_name := "TADistMult"; nentity := 3; nrelation := 1; ntem := 32;
     hidden_dim := 2; epsilon := 2.0; lstm := example_encoder;
     gamma := 6; embedding_range := (6 + 2.0) / 2;
     entity_dim := 2; relation_dim := 2; tem_dim := 2;
     entity_embedding := [[1; 2]; [3; 4]; [5; 6]];
     relation_embedding := [[1; 1]];
     tem_embedding := repeat [1; 0] 32;
     modulus := None |}.

(** [args] with another policy for the negatives *)
Definition with_negative_adversarial_sampling (args : Args) (flag : bool) : Args :=
  {| cuda := cuda args;
     negative_adversarial_sampling := flag;
     adversarial_temperature := adversarial_temperature args;
     uni_weight := uni_weight args;
     regularization := regularization args;
     test_log_steps := test_log_steps args |}.

(** Arguments for concrete runs with weighted averaging and temperature 0. *)
Definition example_weighted_args : Args :=
  {| cuda := false; negative_adversarial_sampling := true;
     adversarial_temperature := 0; uni_weight := false;
     regularization := 0; test_log_steps := 1 |}.

(** Candidate [j] has a strictly greater score than candidate [p]. *)
Definition above (score : vec) (p j : nat) : bool :=
  if Rlt_dec (nth p score 0) (nth j score 0) then true else false.

(** The number of candidates with a strictly greater score than [p]. *)
Definition count_above (score : vec) (p : nat) : nat :=
  List.length (filter (above score p) (seq 0 (List.length score))).

(** No other candidate has the score of candidate [p]. *)
Definition untied (score : vec) (p : nat) : Prop :=
  forall j : nat,
    (j < List.length score)%nat -> j <> p -> nth j score 0 <> nth p score 0.

(** The RotatE model the constructor returns for four entities, two
    relations, hidden width 4 and gamma 6, with an identity encoder and
    empty tables standing for the library's outputs. *)
Definition example_constructed : KGEModel :=
  {| model_name := "RotatE"; nentity := 4; nrelation := 2; ntem := 32;
     hidden_dim := 4; epsilon := 2.0; lstm := fun t => Ok t;
     gamma := 6; embedding_range := (6 + 2.0) / 4;
     entity_dim := 4 * 2; relation_dim := 4; tem_dim := 4;
     entity_embedding := []; relation_embedding := []; tem_embedding := [];
     modulus := None |}.

(** The sum of the cubed magnitudes of all the entries of a table. *)
Definition sum_of_cubes (table : tensor2) : R :=
  vsum (map (fun x => Rabs x ^ 3) (List.concat table)).

(** The row of a table an index that the table holds selects. *)
Definition lookup (table : tensor2) (i : Z) : vec := nth (Z.to_nat i) table [].

(** * Properties *)

(** ** Error monad *)

Lemma bind_Ok {A B : Type} (a : A) (k : A -> result B) : bind (Ok a) k = k a.
Proof. reflexivity. Qed.

Lemma bind_Raise {A B : Type} (e : exn) (k : A -> result B) :
  bind (Raise e) k = Raise e.
Proof. reflexivity. Qed.

Lemma bind_inv_Ok {A B : Type} (c : result A) (k : A -> result B) (b : B) :
  bind c k = Ok b -> exists a, c = Ok a /\ k a = Ok b.
Proof. destruct c as [a|e]; simpl; intros Hb; [eauto | discriminate]. Qed.

(** ** Evaluation: the scoring call *)

(** C1: on every batch the scoring call of [test_step] binds the pair of
    samples to [sample_triple] and the mode string to [sample_tem], runs
    [forward] in 'single' mode and raises on [sample_triple.size(0)]; no
    score is computed, so [test_step] raises as soon as a loader yields a
    batch. *)
Theorem test_step_score_raises :
  forall (argsort_descending : vec -> list nat) (model : KGEModel) (args : Args)
         (batch : TestBatch) (rest tail_batches : list TestBatch),
    test_step_score model batch
    = Raise (AttributeError "'tuple' object has no attribute 'size'")
    /\ test_step argsort_descending model args (batch :: rest) tail_batches
       = Raise (AttributeError "'tuple' object has no attribute 'size'").
Proof.
  intros argsort_descending model args batch rest tail_batches.
  assert (Hscore : test_step_score model batch
                   = Raise (AttributeError "'tuple' object has no attribute 'size'"))
    by reflexivity.
  split; [exact Hscore|].
  unfold test_step, test_step_with.
  cbn [foldM test_batch].
  rewrite Hscore. reflexivity.
Qed.

(** ** Construction *)

Lemma name_in_spec (name : string) (names : list string) :
  name_in name names = true <-> In name names.
Proof.
  unfold name_in. rewrite existsb_exists. split.
  - intros [x [Hin Heq]]. apply String.eqb_eq in Heq. now subst.
  - intros Hin. exists name. split; [assumption | apply String.eqb_refl].
Qed.

(** The membership test of the constructor fails exactly on the names that
    are none of the seven identifiers. *)
Lemma unsupported_spec (name : string) :
  name_in name supported_models = false
  <-> (name <> "TATransE" /\ name <> "TransE" /\ name <> "TADistMult"
       /\ name <> "DistMult" /\ name <> "ComplEx" /\ name <> "RotatE"
       /\ name <> "pRotatE")%string.
Proof.
  unfold name_in, supported_models. cbn [existsb].
  repeat match goal with
         | |- context [String.eqb name ?s] => destruct (String.eqb_spec name s)
         end;
    cbn [orb]; split; intros H;
    try discriminate; try reflexivity;
    try (repeat split; assumption);
    destruct H as (? & ? & ? & ? & ? & ? & ?); congruence.
Qed.

Lemma new_table_Ok (uniform_ : nat -> Z -> Z -> R -> R -> tensor2)
      (k : nat) (rows cols : Z) (range : R) :
  (0 <= rows)%Z -> (0 <= cols)%Z -> 0 <= range ->
  new_table uniform_ k rows cols range = Ok (uniform_ k rows cols (- range) range).
Proof.
  intros Hr Hc Hrange. unfold new_table.
  destruct (Z.ltb_spec rows 0); [lia|].
  destruct (Z.ltb_spec cols 0); [lia|]. cbn [orb].
  destruct (Rle_dec (- range) range) as [_|Hbad]; [reflexivity|].
  exfalso. apply Hbad. lra.
Qed.

Lemma range_nonneg (gamma0 : R) (hidden_dim : Z) :
  (0 < hidden_dim)%Z -> -2 <= gamma0 -> 0 <= (gamma0 + 2.0) / IZR hidden_dim.
Proof.
  intros Hhid Hgamma.
  assert (Hpos : 0 < IZR hidden_dim) by (apply IZR_lt; exact Hhid).
  apply Rmult_le_pos; [lra | left; apply Rinv_0_lt_compat, Hpos].
Qed.

(** C9: for a well-formed numeric configuration (a positive hidden width,
    counts that are not negative, gamma at least -2 so that the range of the
    initialisation is not negative, an encoder that builds) the constructor
    raises a [ValueError] exactly on a name that is none of the seven
    identifiers, on RotatE without double-width entities or with
    double-width relations, and on ComplEx without both double widths;
    otherwise it returns the model, so a violation never reaches
    [forward]. *)
Theorem init_raises_iff_violation :
  forall (LSTMModel : Z -> Z -> result (tensor3 -> result tensor3))
         (uniform_ : nat -> Z -> Z -> R -> R -> tensor2)
         (name : string) (nentity nrelation hidden_dim : Z) (gamma : R)
         (de dr dt : bool) (encoder : tensor3 -> result tensor3),
    LSTMModel hidden_dim 1%Z = Ok encoder ->
    (0 < hidden_dim)%Z -> (0 <= nentity)%Z -> (0 <= nrelation)%Z ->
    -2 <= gamma ->
    ((exists msg,
         __init__ LSTMModel uniform_ name nentity nrelation hidden_dim gamma de dr dt
         = Raise (ValueError msg))
     <-> config_violation name de dr)
    /\ (~ config_violation name de dr ->
        exists model,
          __init__ LSTMModel uniform_ name nentity nrelation hidden_dim gamma de dr dt
          = Ok model
          /\ model_name model = name).
Proof.
  intros LSTMModel uniform_ name nentity nrelation hidden_dim gamma0 de dr dt
         encoder Hlstm Hhid Hent Hrel Hgamma.
  unfold __init__. rewrite Hlstm, bind_Ok.
  destruct (Z.eqb_spec hidden_dim 0) as [Hz|_]; [lia|].
  rewrite bind_Ok.
  pose proof (range_nonneg gamma0 hidden_dim Hhid Hgamma) as Hrange.
  rewrite !new_table_Ok by (try exact Hrange; destruct de, dr, dt; lia).
  rewrite !bind_Ok.
  pose proof (unsupported_spec name) as Hun.
  unfold config_violation.
  destruct (name_in name supported_models) eqn:Hin; cbn [negb].
  - destruct (String.eqb_spec name "RotatE") as [HR|HR];
      destruct (String.eqb_spec name "ComplEx") as [HC|HC];
      destruct de, dr; cbn [andb orb negb];
      (split;
       [split;
        [intros [msg Hm]; try discriminate Hm;
         first [right; left; split;
                [exact HR | first [left; reflexivity | right; reflexivity]]
               |right; right; split;
                [exact HC | first [left; reflexivity | right; reflexivity]]]
        |intros Hv; try (eexists; reflexivity); exfalso;
         destruct Hv as [Hc | [[Hn [Hf|Hf]] | [Hn [Hf|Hf]]]];
         try discriminate; try congruence;
         apply Hun in Hc; discriminate]
       |intros Hnv; try (eexists; split; reflexivity); exfalso; apply Hnv;
        first [right; left; split;
               [exact HR | first [left; reflexivity | right; reflexivity]]
              |right; right; split;
               [exact HC | first [left; reflexivity | right; reflexivity]]]]).
  - assert (Hnone : (name <> "TATransE" /\ name <> "TransE"
                     /\ name <> "TADistMult" /\ name <> "DistMult"
                     /\ name <> "ComplEx" /\ name <> "RotatE"
                     /\ name <> "pRotatE")%string)
      by (apply Hun; reflexivity).
    split.
    + split; [intros _; left; exact Hnone | intros _; eexists; reflexivity].
    + intros Hnv. exfalso. apply Hnv. left. exact Hnone.
Qed.

Lemma init_raises_iff_violation_witness :
  (((exists msg,
        __init__ (fun _ _ => Ok (fun t => Ok t)) (fun _ _ _ _ _ => [])
                 "RotatE" 4 2 4 6 false false false
        = Raise (ValueError msg))
    <-> config_violation "RotatE" false false)
   /\ (~ config_violation "RotatE" false false ->
       exists model,
         __init__ (fun _ _ => Ok (fun t => Ok t)) (fun _ _ _ _ _ => [])
                  "RotatE" 4 2 4 6 false false false
         = Ok model
         /\ model_name model = "RotatE"%string))
  /\ (((exists msg,
           __init__ (fun _ _ => Ok (fun t => Ok t)) (fun _ _ _ _ _ => [])
                    "RotatE" 4 2 4 6 true false false
           = Raise (ValueError msg))
       <-> config_violation "RotatE" true false)
      /\ (~ config_violation "RotatE" true false ->
          exists model,
            __init__ (fun _ _ => Ok (fun t => Ok t)) (fun _ _ _ _ _ => [])
                     "RotatE" 4 2 4 6 true false false
            = Ok model
            /\ model_name model = "RotatE"%string)).
Proof.
  split.
  - apply (init_raises_iff_violation
             (fun _ _ => Ok (fun t => Ok t)) (fun _ _ _ _ _ => [])
             "RotatE" 4 2 4 6 false false false (fun t => Ok t));
      [reflexivity | lia | lia | lia | lra].
  - apply (init_raises_iff_violation
             (fun _ _ => Ok (fun t => Ok t)) (fun _ _ _ _ _ => [])
             "RotatE" 4 2 4 6 true false false (fun t => Ok t));
      [reflexivity | lia | lia | lia | lra].
Defined.

(** ** Broadcasting on vectors *)

Lemma mapM_pure {A B : Type} (g : A -> B) (xs : list A) :
  mapM (fun x => Ok (g x)) xs = Ok (map g xs).
Proof.
  induction xs as [|x xs IH]; simpl; [reflexivity|].
  rewrite IH. reflexivity.
Qed.

Lemma mapM2_pure {A B C : Type} (f : A -> B -> C) (xs : list A) (ys : list B) :
  mapM2 (fun x y => Ok (f x y)) xs ys = Ok (zip_with f xs ys).
Proof.
  revert ys. induction xs as [|x xs IH]; intros [|y ys]; simpl; try reflexivity.
  rewrite IH. reflexivity.
Qed.

Lemma zip_with_length {A B C : Type} (f : A -> B -> C) (xs : list A) (ys : list B) :
  List.length xs = List.length ys ->
  List.length (zip_with f xs ys) = List.length xs.
Proof.
  intros Hl. unfold zip_with.
  rewrite length_map, length_combine, <- Hl. apply Nat.min_id.
Qed.

Lemma zip_with_cons {A B C : Type} (f : A -> B -> C) x xs y ys :
  zip_with f (x :: xs) (y :: ys) = f x y :: zip_with f xs ys.
Proof. reflexivity. Qed.

Lemma length_one {A : Type} (xs : list A) :
  List.length xs = 1%nat -> exists x, xs = [x].
Proof.
  destruct xs as [|x [|x' xs]]; simpl; intros Hl; try discriminate.
  now exists x.
Qed.

Lemma vop_same_length (f : R -> R -> R) (xs ys : vec) :
  List.length xs = List.length ys -> vop f xs ys = Ok (zip_with f xs ys).
Proof.
  intros Hl. unfold vop, broadcast.
  rewrite (proj2 (Nat.eqb_eq _ _) Hl). apply mapM2_pure.
Qed.

Lemma vop_singleton_l (f : R -> R -> R) (x : R) (ys : vec) :
  vop f [x] ys = Ok (map (f x) ys).
Proof.
  unfold vop, broadcast.
  destruct (Nat.eqb_spec (List.length [x]) (List.length ys)) as [Hl|Hl].
  - destruct ys as [|y [|y' ys]]; try discriminate. reflexivity.
  - apply mapM_pure.
Qed.

Lemma vop_singleton_r (f : R -> R -> R) (xs : vec) (y : R) :
  vop f xs [y] = Ok (map (fun x => f x y) xs).
Proof.
  unfold vop, broadcast.
  destruct (Nat.eqb_spec (List.length xs) (List.length [y])) as [Hl|Hl].
  - destruct xs as [|x [|x' xs]]; try discriminate. reflexivity.
  - destruct xs as [|x [|x' xs]]; simpl in Hl; try congruence;
      apply (mapM_pure (fun x0 => f x0 y)).
Qed.

Lemma vop_mismatch (f : R -> R -> R) (xs ys : vec) :
  List.length xs <> List.length ys ->
  List.length xs <> 1%nat -> List.length ys <> 1%nat ->
  vop f xs ys = Raise size_mismatch.
Proof.
  intros Hl Hx Hy. unfold vop, broadcast.
  destruct (Nat.eqb_spec (List.length xs) (List.length ys)); [contradiction|].
  destruct xs as [|x [|x' xs]]; destruct ys as [|y [|y' ys]];
    simpl in *; try congruence; try reflexivity.
Qed.

Lemma vop_cases (xs ys : vec) :
  List.length xs = List.length ys
  \/ (exists x, xs = [x])
  \/ (exists y, ys = [y])
  \/ (List.length xs <> List.length ys
      /\ List.length xs <> 1%nat /\ List.length ys <> 1%nat).
Proof.
  destruct (Nat.eq_dec (List.length xs) (List.length ys)) as [He|Hne];
    [now left|].
  destruct (Nat.eq_dec (List.length xs) 1) as [Hx|Hx];
    [right; left; now apply length_one|].
  destruct (Nat.eq_dec (List.length ys) 1) as [Hy|Hy];
    [right; right; left; now apply length_one|].
  right; right; right. auto.
Qed.

Section Associative.

Variable f : R -> R -> R.
Hypothesis f_assoc : forall x y z, f x (f y z) = f (f x y) z.

Lemma zip_with_assoc (h r t : vec) :
  zip_with f h (zip_with f r t) = zip_with f (zip_with f h r) t.
Proof.
  revert r t. induction h as [|x h IH]; intros [|y r] [|z t]; try reflexivity.
  rewrite !zip_with_cons, IH, f_assoc. reflexivity.
Qed.

Lemma zip_with_scale_l (x : R) (r t : vec) :
  zip_with f (map (f x) r) t = map (f x) (zip_with f r t).
Proof.
  revert t. induction r as [|y r IH]; intros [|z t]; try reflexivity.
  cbn [map]. rewrite !zip_with_cons. cbn [map].
  rewrite IH, f_assoc. reflexivity.
Qed.

Lemma zip_with_scale_r (z : R) (h r : vec) :
  zip_with f h (map (fun a => f a z) r) = map (fun a => f a z) (zip_with f h r).
Proof.
  revert r. induction h as [|x h IH]; intros [|y r]; try reflexivity.
  cbn [map]. rewrite !zip_with_cons. cbn [map].
  rewrite IH, f_assoc. reflexivity.
Qed.

Lemma zip_with_scale_mid (y : R) (h t : vec) :
  zip_with f h (map (f y) t) = zip_with f (map (fun a => f a y) h) t.
Proof.
  revert t. induction h as [|x h IH]; intros [|z t]; try reflexivity.
  cbn [map]. rewrite !zip_with_cons, IH, f_assoc. reflexivity.
Qed.

Lemma vop_scale_l (x : R) (r t : vec) :
  vop f (map (f x) r) t = (p <- vop f r t ;; Ok (map (f x) p)).
Proof.
  destruct (vop_cases r t) as [He|[[y ->]|[[z ->]|[Hne [Hr Ht]]]]].
  - rewrite !vop_same_length by (rewrite ?length_map; assumption).
    rewrite bind_Ok, zip_with_scale_l. reflexivity.
  - cbn [map]. rewrite !vop_singleton_l, bind_Ok, map_map.
    f_equal. apply map_ext. intros a. symmetry. apply f_assoc.
  - rewrite !vop_singleton_r, bind_Ok, !map_map.
    f_equal. apply map_ext. intros a. symmetry. apply f_assoc.
  - rewrite !vop_mismatch by (rewrite ?length_map; assumption). reflexivity.
Qed.

Lemma vop_scale_r (z : R) (h r : vec) :
  vop f h (map (fun a => f a z) r)
  = (p <- vop f h r ;; Ok (map (fun a => f a z) p)).
Proof.
  destruct (vop_cases h r) as [He|[[x ->]|[[y ->]|[Hne [Hh Hr]]]]].
  - rewrite !vop_same_length by (rewrite ?length_map; assumption).
    rewrite bind_Ok, zip_with_scale_r. reflexivity.
  - rewrite !vop_singleton_l, bind_Ok, !map_map.
    f_equal. apply map_ext. intros a. apply f_assoc.
  - cbn [map]. rewrite !vop_singleton_r, bind_Ok, map_map.
    f_equal. apply map_ext. intros a. apply f_assoc.
  - rewrite !vop_mismatch by (rewrite ?length_map; assumption). reflexivity.
Qed.

Lemma vop_scale_mid (y : R) (h t : vec) :
  vop f h (map (f y) t) = vop f (map (fun a => f a y) h) t.
Proof.
  destruct (vop_cases h t) as [He|[[x ->]|[[z ->]|[Hne [Hh Ht]]]]].
  - rewrite !vop_same_length by (rewrite ?length_map; assumption).
    rewrite zip_with_scale_mid. reflexivity.
  - cbn [map]. rewrite !vop_singleton_l, map_map.
    f_equal. apply map_ext. intros a. apply f_assoc.
  - cbn [map]. rewrite !vop_singleton_r, map_map.
    f_equal. apply map_ext. intros a. apply f_assoc.
  - rewrite !vop_mismatch by (rewrite ?length_map; assumption). reflexivity.
Qed.

(** Broadcasting keeps an associative operation associative, size errors
    included. *)
Lemma vop_assoc (h r t : vec) :
  (p <- vop f r t ;; vop f h p) = (p <- vop f h r ;; vop f p t).
Proof.
  destruct (Nat.eq_dec (List.length h) 1) as [Hh|Hh].
  { apply length_one in Hh as [x ->].
    rewrite (vop_singleton_l f x r), bind_Ok, vop_scale_l.
    destruct (vop f r t) as [p|e]; [|reflexivity].
    rewrite !bind_Ok. apply vop_singleton_l. }
  destruct (Nat.eq_dec (List.length t) 1) as [Ht|Ht].
  { apply length_one in Ht as [z ->].
    rewrite (vop_singleton_r f r z), bind_Ok, vop_scale_r.
    destruct (vop f h r) as [p|e]; [|reflexivity].
    rewrite !bind_Ok. symmetry. apply vop_singleton_r. }
  destruct (Nat.eq_dec (List.length r) 1) as [Hr|Hr].
  { apply length_one in Hr as [y ->].
    rewrite vop_singleton_l, vop_singleton_r, !bind_Ok.
    apply vop_scale_mid. }
  destruct (Nat.eq_dec (List.length r) (List.length t)) as [Hrt|Hrt];
    destruct (Nat.eq_dec (List.length h) (List.length r)) as [Hhr|Hhr].
  - rewrite (vop_same_length f r t Hrt), (vop_same_length f h r Hhr), !bind_Ok.
    rewrite !vop_same_length
      by (rewrite ?zip_with_length by assumption; congruence).
    rewrite zip_with_assoc. reflexivity.
  - rewrite (vop_same_length f r t Hrt), bind_Ok.
    rewrite (vop_mismatch f h r) by assumption.
    rewrite vop_mismatch
      by (rewrite ?zip_with_length by assumption; assumption).
    reflexivity.
  - rewrite (vop_mismatch f r t) by assumption.
    rewrite (vop_same_length f h r Hhr), !bind_Ok.
    rewrite vop_mismatch
      by (rewrite ?zip_with_length by assumption; congruence).
    reflexivity.
  - rewrite (vop_mismatch f r t), (vop_mismatch f h r) by assumption.
    reflexivity.
Qed.

End Associative.

(** ** DistMult and ComplEx on one triple *)

Lemma top_single (f : R -> R -> R) (a b : vec) :
  top f [[a]] [[b]] = (v <- vop f a b ;; Ok [[v]]).
Proof.
  unfold top, mop, broadcast. cbn.
  destruct (vop f a b); reflexivity.
Qed.

Lemma top_single_same (f : R -> R -> R) (a b : vec) :
  List.length a = List.length b -> top f [[a]] [[b]] = Ok [[zip_with f a b]].
Proof.
  intros Hl. rewrite top_single, vop_same_length by assumption. reflexivity.
Qed.

Ltac solve_length :=
  repeat (rewrite zip_with_length by solve_length);
  solve [assumption | congruence | lia].

Lemma DistMult_single (self : KGEModel) (h r t : vec) (mode : string) :
  DistMult self [[h]] [[r]] [[t]] mode
  = (v <- (if is_head_batch mode
           then p <- vop Rmult r t ;; vop Rmult h p
           else p <- vop Rmult h r ;; vop Rmult p t) ;;
     Ok [[vsum v]]).
Proof.
  unfold DistMult, tmul.
  destruct (is_head_batch mode); rewrite top_single.
  - destruct (vop Rmult r t) as [p|e]; [|reflexivity].
    rewrite !bind_Ok, top_single.
    destruct (vop Rmult h p); reflexivity.
  - destruct (vop Rmult h r) as [p|e]; [|reflexivity].
    rewrite !bind_Ok, top_single.
    destruct (vop Rmult p t); reflexivity.
Qed.

Lemma chunk_vec_even (v : vec) (d : nat) :
  List.length v = (2 * d)%nat ->
  chunk_vec v = (firstn d v, skipn d v)
  /\ List.length (firstn d v) = d /\ List.length (skipn d v) = d.
Proof.
  intros Hl. unfold chunk_vec. rewrite Hl.
  replace ((2 * d + 1) / 2)%nat with d.
  - rewrite length_firstn, length_skipn. repeat split; lia.
  - apply Nat.div_unique with (r := 1%nat); lia.
Qed.

Lemma chunk2_single (v : vec) (d : nat) :
  List.length v = (2 * d)%nat ->
  chunk2 [[v]] = Ok ([[firstn d v]], [[skipn d v]]).
Proof.
  intros Hl. unfold chunk2. cbn [forallb map andb].
  destruct (Nat.eqb_spec (List.length v) 1) as [Hone|_]; [lia|].
  cbn [negb andb]. destruct (chunk_vec_even v d Hl) as [-> _]. reflexivity.
Qed.

(** The two assemblies of ComplEx agree component by component. *)
Lemma complex_assembly (rh ih rr ir rt it : vec) :
  zip_with Rplus
    (zip_with Rmult rh
       (zip_with Rplus (zip_with Rmult rr rt) (zip_with Rmult ir it)))
    (zip_with Rmult ih
       (zip_with Rminus (zip_with Rmult rr it) (zip_with Rmult ir rt)))
  = zip_with Rplus
      (zip_with Rmult
         (zip_with Rminus (zip_with Rmult rh rr) (zip_with Rmult ih ir)) rt)
      (zip_with Rmult
         (zip_with Rplus (zip_with Rmult rh ir) (zip_with Rmult ih rr)) it).
Proof.
  revert ih rr ir rt it.
  induction rh as [|a rh IH]; intros [|b ih] [|c rr] [|d ir] [|e rt] [|g it];
    try reflexivity.
  rewrite !zip_with_cons. f_equal; [ring | apply IH].
Qed.

(** C4: for one triple with head, relation and tail vectors, DistMult gives
    the same result in head-batch and in tail-batch mode, whatever the
    widths; ComplEx on vectors of a common even width, the width the
    constructor imposes on it, gives one and the same score in both. *)
Theorem DistMult_ComplEx_mode_independent :
  forall (self : KGEModel) (h r t : vec) (d : nat),
    DistMult self [[h]] [[r]] [[t]] "head-batch"
    = DistMult self [[h]] [[r]] [[t]] "tail-batch"
    /\ (List.length h = (2 * d)%nat -> List.length r = (2 * d)%nat ->
        List.length t = (2 * d)%nat ->
        exists score : R,
          ComplEx self [[h]] [[r]] [[t]] "head-batch" = Ok [[score]]
          /\ ComplEx self [[h]] [[r]] [[t]] "tail-batch" = Ok [[score]]).
Proof.
  intros self h r t d. split.
  - rewrite !DistMult_single. cbn [is_head_batch String.eqb Ascii.eqb Bool.eqb].
    rewrite (vop_assoc Rmult) by (intros; ring). reflexivity.
  - intros Hh Hr Ht. unfold ComplEx.
    rewrite (chunk2_single h d), (chunk2_single r d), (chunk2_single t d)
      by assumption.
    destruct (chunk_vec_even h d Hh) as (_ & Hrh & Hih).
    destruct (chunk_vec_even r d Hr) as (_ & Hrr & Hir).
    destruct (chunk_vec_even t d Ht) as (_ & Hrt & Hit).
    cbn [bind is_head_batch String.eqb Ascii.eqb Bool.eqb].
    unfold tmul, tadd, tsub.
    repeat (rewrite top_single_same by solve_length; rewrite bind_Ok).
    rewrite complex_assembly. eexists. split; reflexivity.
Qed.

Lemma DistMult_ComplEx_mode_independent_witness :
  DistMult example_model [[ [1; 2] ]] [[ [3; 4] ]] [[ [5; 6] ]] "head-batch"
  = DistMult example_model [[ [1; 2] ]] [[ [3; 4] ]] [[ [5; 6] ]] "tail-batch"
  /\ exists score : R,
       ComplEx example_model [[ [1; 2] ]] [[ [3; 4] ]] [[ [5; 6] ]] "head-batch"
       = Ok [[score]]
       /\ ComplEx example_model [[ [1; 2] ]] [[ [3; 4] ]] [[ [5; 6] ]] "tail-batch"
          = Ok [[score]].
Proof.
  destruct (DistMult_ComplEx_mode_independent
              example_model [1; 2] [3; 4] [5; 6] 1) as [HD HC].
  split; [exact HD | apply HC; reflexivity].
Defined.

(** ** The cubic norm *)

Lemma vsum_nonneg (v : vec) : Forall (fun x => 0 <= x) v -> 0 <= vsum v.
Proof.
  induction 1 as [|x v Hx _ IH]; simpl; [lra|]. lra.
Qed.

Lemma cubes_nonneg (entries : list R) :
  0 <= vsum (map (fun x => Rabs x ^ 3) entries).
Proof.
  apply vsum_nonneg, Forall_forall. intros y Hy.
  apply in_map_iff in Hy as [x [<- _]].
  apply pow_le, Rabs_pos.
Qed.

Lemma root3_nonneg (y : R) : 0 <= root3 y.
Proof.
  unfold root3. destruct (Rlt_dec 0 y); [|lra].
  left. apply exp_pos.
Qed.

Lemma root3_cube (y : R) : 0 <= y -> root3 (y ^ 3) = y.
Proof.
  intros Hy. unfold root3.
  destruct (Rlt_dec 0 (y ^ 3)) as [Hpos|Hnpos].
  - assert (Hy0 : 0 < y).
    { destruct Hy as [Hy|<-]; [assumption|]. rewrite pow_i in Hpos by lia. lra. }
    rewrite <- (Rpower_pow 3 y Hy0), Rpower_mult.
    replace (INR 3 * / 3) with 1 by (simpl; field).
    apply Rpower_1, Hy0.
  - destruct Hy as [Hy|<-]; [|reflexivity].
    exfalso. apply Hnpos. apply pow_lt, Hy.
Qed.

Lemma cube_root3 (y : R) : 0 <= y -> root3 y ^ 3 = y.
Proof.
  intros Hy. unfold root3.
  destruct (Rlt_dec 0 y) as [Hpos|Hnpos].
  - rewrite <- Rpower_pow by apply exp_pos.
    rewrite Rpower_mult.
    replace (/ 3 * INR 3) with 1 by (simpl; field).
    apply Rpower_1, Hpos.
  - rewrite pow_i by lia. lra.
Qed.

Lemma norm_p3_nonneg (entries : list R) : 0 <= norm_p3 entries.
Proof. apply root3_nonneg. Qed.

Lemma norm_p3_scalar (s : R) : 0 <= s -> norm_p3 [s] = s.
Proof.
  intros Hs. unfold norm_p3. cbn [map vsum fold_right].
  rewrite Rplus_0_r, (Rabs_pos_eq s Hs). apply root3_cube, Hs.
Qed.

(** The cube of the 3-norm is the sum of the cubed magnitudes. *)
Lemma norm_p3_cubed (entries : list R) :
  norm_p3 entries ^ 3 = vsum (map (fun x => Rabs x ^ 3) entries).
Proof. apply cube_root3, cubes_nonneg. Qed.

(** C10: the 3-norm of the 3-norm of the relation table, cubed, is the
    3-norm of the relation table, cubed; the outer norm of the regularizer
    changes nothing. *)
Theorem nested_norm_is_single_norm :
  forall model : KGEModel,
    norm_p3 [norm_p3 (List.concat (relation_embedding model))] ^ 3
    = norm_p3 (List.concat (relation_embedding model)) ^ 3.
Proof.
  intros model. rewrite norm_p3_scalar by apply norm_p3_nonneg. reflexivity.
Qed.

(** ** The loss of train_step *)

Lemma cubic_norm_of_norm_p3 (entries : list R) :
  cubic_norm_of entries (norm_p3 entries).
Proof. split; [apply norm_p3_nonneg | apply norm_p3_cubed]. Qed.





Lemma ssum_R (xs : list R) : ssum xs = vsum xs.
Proof. reflexivity. Qed.

Lemma smean_R (xs : list R) : smean xs = vsum xs / INR (List.length xs).
Proof. reflexivity. Qed.

Lemma zip_with_ones (n : nat) (score : vec) :
  List.length score = n -> zip_with Rmult (repeat 1 n) score = score.
Proof.
  revert n. induction score as [|x score IH]; intros [|n] Hl;
    try discriminate; [reflexivity|].
  cbn [repeat]. rewrite zip_with_cons, IH by (simpl in Hl; lia).
  f_equal. ring.
Qed.

Lemma vsum_ones (n : nat) : vsum (repeat 1 n) = INR n.
Proof.
  induction n as [|n IH]; [reflexivity|].
  cbn [repeat vsum fold_right]. fold (vsum (repeat 1 n)).
  rewrite IH, S_INR. ring.
Qed.

Lemma weighted_loss_ones (n : nat) (score : vec) :
  List.length score = n ->
  weighted_loss (repeat 1 n) score = Ok (- smean score).
Proof.
  intros Hl. unfold weighted_loss.
  rewrite vop_same_length by (rewrite repeat_length; congruence).
  rewrite bind_Ok, zip_with_ones, vsum_ones, smean_R, Hl by assumption.
  f_equal. unfold Rdiv. ring.
Qed.

Lemma logsigmoid_negative (x : R) : logsigmoid x < 0.
Proof.
  cbn [logsigmoid R_scalar].
  assert (Hexp : 0 < exp (- x)) by apply exp_pos.
  assert (Hln : 0 < ln (1 + exp (- x))).
  { rewrite <- ln_1. apply ln_increasing; lra. }
  lra.
Qed.

Lemma vsum_negative (v : vec) :
  Forall (fun x => x < 0) v -> v <> [] -> vsum v < 0.
Proof.
  intros Hall Hne. destruct v as [|x v]; [contradiction|].
  inversion Hall as [|? ? Hx Hv]; subst.
  assert (Hle : vsum v <= 0).
  { clear -Hv. induction Hv as [|y v Hy _ IH]; simpl; lra. }
  simpl. fold (vsum v). lra.
Qed.

Lemma vsum_nonpos (v : vec) : Forall (fun x => x <= 0) v -> vsum v <= 0.
Proof. induction 1 as [|x v Hx _ IH]; simpl; lra. Qed.

Lemma div_INR_nonpos (s : R) (n : nat) : s <= 0 -> s / INR n <= 0.
Proof.
  intros Hs. destruct n as [|n].
  - unfold Rdiv. simpl. rewrite Rinv_0. lra.
  - assert (Hn : 0 < INR (S n)) by apply lt_0_INR, Nat.lt_0_succ.
    assert (Hi : 0 < / INR (S n)) by apply Rinv_0_lt_compat, Hn.
    unfold Rdiv. nra.
Qed.

Lemma smean_negative (v : vec) :
  Forall (fun x => x < 0) v -> v <> [] -> smean v < 0.
Proof.
  intros Hall Hne. rewrite smean_R.
  assert (Hs : vsum v < 0) by (apply vsum_negative; assumption).
  assert (Hn : 0 < INR (List.length v)).
  { apply lt_0_INR. destruct v; [contradiction | simpl; lia]. }
  assert (Hi : 0 < / INR (List.length v)) by apply Rinv_0_lt_compat, Hn.
  unfold Rdiv. nra.
Qed.

Lemma softmax_nonneg (row : list R) : Forall (fun x => 0 <= x) (softmax row).
Proof.
  unfold softmax. apply Forall_forall. intros y Hy.
  apply in_map_iff in Hy as [e [<- He]].
  apply in_map_iff in He as [x [<- Hx]].
  cbn [sdiv sexp R_scalar]. rewrite ssum_R.
  assert (Hsum : 0 <= vsum (map exp row)).
  { apply vsum_nonneg, Forall_forall. intros z Hz.
    apply in_map_iff in Hz as [u [<- _]]. left. apply exp_pos. }
  assert (Hex : 0 < exp x) by apply exp_pos.
  destruct Hsum as [Hpos|<-].
  - left. apply Rdiv_lt_0_compat; assumption.
  - unfold Rdiv. rewrite Rinv_0. lra.
Qed.

Lemma weighted_terms_nonpos (ws ls : list R) :
  Forall (fun x => 0 <= x) ws -> Forall (fun x => x <= 0) ls ->
  Forall (fun x => x <= 0) (zip_with Rmult ws ls).
Proof.
  intros Hw. revert ls. induction Hw as [|w ws Hw0 _ IH]; intros ls Hl.
  - constructor.
  - destruct Hl as [|l ls Hl0 Hl]; [constructor|].
    rewrite zip_with_cons. constructor; [nra | apply IH, Hl].
Qed.

Lemma reduce_negative_nonpos (args : Args) (negative_score : tensor2) :
  Forall (fun x => x <= 0) (reduce_negative args negative_score).
Proof.
  unfold reduce_negative.
  assert (Hls : forall row : list R,
             Forall (fun x => x <= 0) (map (fun s => logsigmoid (sneg s)) row)).
  { intros row. apply Forall_forall. intros y Hy.
    apply in_map_iff in Hy as [s [<- _]]. left. apply logsigmoid_negative. }
  destruct (negative_adversarial_sampling args);
    apply Forall_forall; intros y Hy;
    apply in_map_iff in Hy as [row [<- _]].
  - rewrite ssum_R. apply vsum_nonpos, weighted_terms_nonpos; [|apply Hls].
    rewrite map_id. apply softmax_nonneg.
  - rewrite smean_R. apply div_INR_nonpos, vsum_nonpos, Hls.
Qed.

Lemma squeeze1_map (g : R -> R) (t : tensor2) :
  squeeze1 (map (map g) t) = map g (squeeze1 t).
Proof. unfold squeeze1. symmetry. apply concat_map. Qed.

Lemma reduce_negative_length (args : Args) (negative_score : tensor2) :
  List.length (reduce_negative args negative_score) = List.length negative_score.
Proof.
  unfold reduce_negative.
  destruct (negative_adversarial_sampling args); apply length_map.
Qed.

(** C3: with one weight of 1 per example the weighted branch returns the
    negated mean of the per-example log-sigmoid terms, while the uni_weight
    branch returns the mean itself: on every non-empty batch the uni_weight
    loss is the opposite of the weighted loss, and it is negative. *)
Theorem uni_weight_loss_is_negated :
  forall (model : KGEModel) (args : Args)
         (negative_score positive_score : tensor2) (n : nat),
    List.length (squeeze1 positive_score) = n ->
    List.length negative_score = n ->
    (0 < n)%nat ->
    let pl := smean (squeeze1 (map (map logsigmoid) positive_score)) in
    let nl := smean (reduce_negative args negative_score) in
    result_map loss
      (train_step_loss model (with_regularization (with_uni_weight args true) 0)
                       negative_score positive_score (repeat 1 n))
    = Ok ((pl + nl) / 2)
    /\ result_map loss
         (train_step_loss model (with_regularization (with_uni_weight args false) 0)
                          negative_score positive_score (repeat 1 n))
       = Ok (- ((pl + nl) / 2))
    /\ (pl + nl) / 2 < 0.
Proof.
  intros model args ns ps n Hps Hns Hn pl nl.
  unfold train_step_loss.
  cbn [regularization with_regularization with_uni_weight uni_weight].
  replace (reduce_negative
             (with_regularization (with_uni_weight args true) 0) ns)
    with (reduce_negative args ns) by reflexivity.
  replace (reduce_negative
             (with_regularization (with_uni_weight args false) 0) ns)
    with (reduce_negative args ns) by reflexivity.
  destruct (Req_dec_T 0 0.0) as [_|Hne]; [|exfalso; apply Hne; lra].
  repeat split.
  - rewrite !weighted_loss_ones
      by (rewrite ?squeeze1_map, ?length_map, ?reduce_negative_length; assumption).
    cbn [bind result_map loss]. fold pl nl. f_equal. lra.
  - assert (Hpl : pl < 0).
    { subst pl. rewrite squeeze1_map. apply smean_negative.
      - apply Forall_forall. intros y Hy.
        apply in_map_iff in Hy as [x [<- _]]. apply logsigmoid_negative.
      - intros Hnil. apply (f_equal (@List.length R)) in Hnil.
        rewrite length_map, Hps in Hnil. simpl in Hnil. lia. }
    assert (Hnl : nl <= 0).
    { subst nl. rewrite smean_R.
      apply div_INR_nonpos, vsum_nonpos, reduce_negative_nonpos. }
    lra.
Qed.

Lemma uni_weight_loss_is_negated_witness :
  result_map loss
    (train_step_loss example_model
       (with_regularization (with_uni_weight example_args true) 0)
       [[0]] [[0]] (repeat 1 1%nat))
  = Ok ((smean (squeeze1 (map (map logsigmoid) [[0]]))
         + smean (reduce_negative example_args [[0]])) / 2)
  /\ result_map loss
       (train_step_loss example_model
          (with_regularization (with_uni_weight example_args false) 0)
          [[0]] [[0]] (repeat 1 1%nat))
     = Ok (- ((smean (squeeze1 (map (map logsigmoid) [[0]]))
               + smean (reduce_negative example_args [[0]])) / 2))
  /\ (smean (squeeze1 (map (map logsigmoid) [[0]]))
      + smean (reduce_negative example_args [[0]])) / 2 < 0.
Proof.
  apply (uni_weight_loss_is_negated example_model example_args [[0]] [[0]] 1%nat);
    [reflexivity | reflexivity | lia].
Defined.

(** ** The negative reduction and its gradient *)

Lemma dual_ext (a b : dual) :
  primal a = primal b -> tangent a = tangent b -> a = b.
Proof. destruct a, b; simpl; intros -> ->; reflexivity. Qed.

Lemma ssum_dual (ds : list dual) :
  ssum ds = Dual (vsum (map primal ds)) (vsum (map tangent ds)).
Proof.
  induction ds as [|d ds IH]; [reflexivity|].
  cbn [ssum fold_right map vsum]. fold (ssum ds). rewrite IH. reflexivity.
Qed.

Lemma ssum_constant_weights (ws : list R) (ds : list dual) :
  ssum (zip_with smul (map (fun w => Dual w 0) ws) ds)
  = Dual (vsum (zip_with Rmult ws (map primal ds)))
         (vsum (zip_with Rmult ws (map tangent ds))).
Proof.
  revert ds. induction ws as [|w ws IH]; intros [|d ds]; try reflexivity.
  cbn [map]. rewrite !zip_with_cons.
  cbn [ssum fold_right vsum].
  fold (ssum (zip_with smul (map (fun w0 => Dual w0 0) ws) ds)).
  rewrite IH. apply dual_ext; cbn; unfold vsum; ring.
Qed.

Lemma detached_softmax (temperature : R) (row : list dual) :
  map detach (softmax (map (fun s => smul s (of_R temperature)) row))
  = map (fun w => Dual w 0) (softmax_weights temperature (map primal row)).
Proof.
  unfold softmax, softmax_weights.
  rewrite ssum_dual, !map_map.
  apply map_ext. intros s. reflexivity.
Qed.

Lemma logsigmoid_dual (s : dual) :
  logsigmoid (sneg s)
  = Dual (log_sigmoid (- primal s))
         (- tangent s * log_sigmoid_slope (- primal s)).
Proof.
  apply dual_ext; cbn; unfold log_sigmoid, log_sigmoid_slope.
  - reflexivity.
  - reflexivity.
Qed.

Lemma div_by_count (p t : R) (n : nat) :
  (t * INR n - p * 0) / (INR n * INR n) = t / INR n.
Proof.
  destruct n as [|n].
  - unfold Rdiv. simpl. rewrite Rmult_0_r, Rinv_0. ring.
  - assert (Hn : INR (S n) <> 0) by (apply not_0_INR; discriminate).
    field. exact Hn.
Qed.

(** C7: on score entries that carry a tangent, the self-adversarial
    reduction of a row has the value of the sum of softmax(score times
    temperature) times log-sigmoid(-score) and the tangent of that sum with
    the weights held constant; the plain reduction is the mean of
    log-sigmoid(-score) over the row, in value and in tangent. *)
Theorem reduce_negative_policies :
  forall (args : Args) (negative_score : list (list dual)),
    reduce_negative args negative_score
    = if negative_adversarial_sampling args
      then map (spec_adversarial (adversarial_temperature args)) negative_score
      else map spec_plain negative_score.
Proof.
  intros args score. unfold reduce_negative.
  destruct (negative_adversarial_sampling args); apply map_ext; intros row.
  - rewrite detached_softmax, ssum_constant_weights, !map_map.
    unfold spec_adversarial. f_equal; f_equal; f_equal;
      apply map_ext; intros s; rewrite logsigmoid_dual; reflexivity.
  - unfold smean, spec_plain. rewrite ssum_dual, !map_map, length_map.
    apply dual_ext; cbn [sdiv of_R dual_scalar primal tangent].
    + reflexivity.
    + rewrite div_by_count. reflexivity.
Qed.

(** The tangent the dual instance gives to log-sigmoid is its derivative. *)
Lemma log_sigmoid_derivative (x : R) :
  derivable_pt_lim log_sigmoid x (log_sigmoid_slope x).
Proof.
  assert (Hpos : 0 < 1 + exp (- x)) by (pose proof (exp_pos (- x)); lra).
  assert (Hex : 0 < exp x) by apply exp_pos.
  assert (Hinner : derivable_pt_lim (fct_cte 1 + comp exp (- id))%F x
                                    (0 + exp (- x) * - 1)).
  { apply derivable_pt_lim_plus.
    - apply derivable_pt_lim_const.
    - apply derivable_pt_lim_comp.
      + apply derivable_pt_lim_opp, derivable_pt_lim_id.
      + apply derivable_pt_lim_exp. }
  assert (Hln : derivable_pt_lim (comp ln (fct_cte 1 + comp exp (- id)))%F x
                                 (/ (1 + exp (- x)) * (0 + exp (- x) * - 1))).
  { apply derivable_pt_lim_comp; [exact Hinner|].
    apply derivable_pt_lim_ln. exact Hpos. }
  apply derivable_pt_lim_opp in Hln.
  replace (log_sigmoid_slope x)
    with (- (/ (1 + exp (- x)) * (0 + exp (- x) * - 1))).
  - exact Hln.
  - unfold log_sigmoid_slope. rewrite exp_Ropp. field. lra.
Qed.

(** ** RotatE and the period of the phase *)

Lemma map_update_nth_invariant {A B : Type} (F : A -> B) (G : A -> A)
      (n : nat) (l : list A) :
  (forall x, F (G x) = F x) -> map F (update_nth n G l) = map F l.
Proof.
  intros HFG. revert n. induction l as [|x l IH]; intros [|n]; simpl;
    try reflexivity.
  - rewrite HFG. reflexivity.
  - rewrite IH. reflexivity.
Qed.

Lemma tmap_update_invariant (f g : R -> R) (b j k : nat) (t : tensor3) :
  (forall x, f (g x) = f x) ->
  tmap f (update_component b j k g t) = tmap f t.
Proof.
  intros Hfg. unfold tmap, update_component.
  apply map_update_nth_invariant. intros m.
  apply map_update_nth_invariant. intros v.
  apply map_update_nth_invariant. exact Hfg.
Qed.

Lemma tmap_tmap (f g : R -> R) (t : tensor3) :
  tmap f (tmap g t) = tmap (fun x => f (g x)) t.
Proof.
  unfold tmap. rewrite map_map. apply map_ext. intros m.
  rewrite map_map. apply map_ext. intros v. apply map_map.
Qed.

Lemma cos_shift (x : R) : cos (x + 2 * PI) = cos x.
Proof. rewrite cos_plus, cos_2PI, sin_2PI. ring. Qed.

Lemma sin_shift (x : R) : sin (x + 2 * PI) = sin x.
Proof. rewrite sin_plus, cos_2PI, sin_2PI. ring. Qed.

Lemma phase_shift (range x : R) :
  range <> 0 ->
  (x + 2 * range) / (range / RotatE_pi) = x / (range / RotatE_pi) + 2 * PI.
Proof.
  intros Hrange. unfold RotatE_pi.
  pose proof PI_RGT_0 as Hpi. field. split; lra.
Qed.

(** C5: over the reals, adding 2 * embedding_range, which is 2 pi times the
    divisor embedding_range / pi of the phase conversion, to one component
    of the relation tensor leaves the RotatE score unchanged in every mode,
    for a range that is not 0: the phase moves by 2 pi, a period of the
    cosine and of the sine. *)
Theorem RotatE_phase_wraparound :
  forall (self : KGEModel) (head relation tail : tensor3) (mode : string)
         (b j k : nat),
    embedding_range self <> 0 ->
    RotatE self head
           (update_component b j k
              (fun x => x + 2 * embedding_range self) relation)
           tail mode
    = RotatE self head relation tail mode.
Proof.
  intros self head relation tail mode b j k Hrange.
  unfold RotatE. cbv zeta.
  rewrite !tmap_tmap.
  rewrite !(tmap_update_invariant _ _ b j k relation); [reflexivity| |].
  - intros x. rewrite (phase_shift _ x Hrange). apply sin_shift.
  - intros x. rewrite (phase_shift _ x Hrange). apply cos_shift.
Qed.

Lemma example_range : embedding_range example_model = 8.
Proof. cbn [embedding_range example_model]. lra. Qed.

Lemma RotatE_phase_wraparound_witness :
  RotatE example_model [[ [1; 0] ]]
         (update_component 0 0 0
            (fun x => x + 2 * embedding_range example_model) [[ [1] ]])
         [[ [0; 1] ]] "tail-batch"
  = RotatE example_model [[ [1; 0] ]] [[ [1] ]] [[ [0; 1] ]] "tail-batch".
Proof.
  apply (RotatE_phase_wraparound example_model [[ [1; 0] ]] [[ [1] ]]
           [[ [0; 1] ]] "tail-batch" 0 0 0).
  rewrite example_range. lra.
Defined.

(** ** Ranking: the position of the true entity *)

Lemma nonzero_from_app (i : nat) (m1 m2 : list bool) :
  nonzero_from i (m1 ++ m2)
  = nonzero_from i m1 ++ nonzero_from (i + List.length m1) m2.
Proof.
  revert i. induction m1 as [|b m1 IH]; intros i; cbn [app nonzero_from List.length].
  - rewrite Nat.add_0_r. reflexivity.
  - rewrite IH. replace (S i + List.length m1)%nat with (i + S (List.length m1))%nat by lia.
    destruct b; reflexivity.
Qed.

Lemma nonzero_from_none (i : nat) (mask : list bool) :
  Forall (fun b => b = false) mask -> nonzero_from i mask = [].
Proof.
  intros Hall. revert i. induction Hall as [|b mask -> _ IH]; intros i;
    [reflexivity | apply IH].
Qed.

Lemma absent_mask (x : nat) (l : list nat) :
  ~ In x l ->
  Forall (fun b => b = false) (map (fun e => (Z.of_nat e =? Z.of_nat x)%Z) l).
Proof.
  intros Hnot. apply Forall_forall. intros b Hb.
  apply in_map_iff in Hb as [e [<- He]].
  apply Z.eqb_neq. intros Heq. apply Nat2Z.inj in Heq. subst. contradiction.
Qed.

(** In a list without repetition the comparison with one of its elements
    is non-zero at the position of that element and nowhere else. *)
Lemma nonzero_unique (order : list nat) (k x : nat) :
  NoDup order -> nth_error order k = Some x ->
  nonzero (map (fun e => (Z.of_nat e =? Z.of_nat x)%Z) order) = [k].
Proof.
  intros Hnd Hk.
  apply nth_error_split in Hk as (l1 & l2 & -> & Hlen).
  apply NoDup_remove_2 in Hnd.
  assert (H1 : ~ In x l1) by (intros H; apply Hnd, in_or_app; now left).
  assert (H2 : ~ In x l2) by (intros H; apply Hnd, in_or_app; now right).
  unfold nonzero. rewrite map_app, nonzero_from_app.
  rewrite (nonzero_from_none 0) by apply absent_mask, H1.
  cbn [map nonzero_from app]. rewrite Z.eqb_refl.
  rewrite nonzero_from_none by apply absent_mask, H2.
  rewrite length_map, Hlen. reflexivity.
Qed.

(** C2, as the code has it: whatever order the library returns among equal
    scores, a true entity within the scored candidates sits at exactly one
    position of the order, so the assertion of the loop holds. *)
Theorem true_entity_has_one_position :
  forall (score : vec) (order : list nat) (p : Z),
    argsort_contract score order ->
    (0 <= p < Z.of_nat (List.length score))%Z ->
    exists item : nat,
      nonzero (map (fun e => (Z.of_nat e =? p)%Z) order) = [item]
      /\ nth_error order item = Some (Z.to_nat p).
Proof.
  intros score order p [Hperm _] Hp.
  assert (Hnd : NoDup order).
  { apply (Permutation_NoDup (Permutation_sym Hperm)), seq_NoDup. }
  assert (Hin : In (Z.to_nat p) order).
  { apply (Permutation_in _ (Permutation_sym Hperm)), in_seq. lia. }
  apply In_nth_error in Hin as [item Hitem].
  exists item. split; [|exact Hitem].
  rewrite <- (nonzero_unique order item (Z.to_nat p) Hnd Hitem).
  rewrite Z2Nat.id by lia. reflexivity.
Qed.

Lemma true_entity_has_one_position_witness :
  exists item : nat,
    nonzero (map (fun e => (Z.of_nat e =? 0)%Z) [1; 0; 2]%nat) = [item]
    /\ nth_error [1; 0; 2]%nat item = Some (Z.to_nat 0).
Proof.
  apply (true_entity_has_one_position [2; 3; 1] [1; 0; 2]%nat 0%Z).
  - split.
    + apply perm_swap.
    + repeat constructor; simpl; lra.
  - simpl. lia.
Defined.

(** C2, as stated, fails on the code: on two equal scores the order that
    puts entity 1 first meets all that the sort promises, breaks the tie
    against the entity id, and moves the true entity 0 from rank 1 to
    rank 2. *)
Lemma argsort_ties_not_by_entity_id :
  argsort_contract [1; 1] [1; 0]%nat
  /\ argsort_contract [1; 1] [0; 1]%nat
  /\ ~ ties_by_entity_id [1; 1] [1; 0]%nat
  /\ result_map MR (rank_log [1; 0]%nat 0) = Ok (inject_Z 2)
  /\ result_map MR (rank_log [0; 1]%nat 0) = Ok (inject_Z 1).
Proof.
  repeat split.
  - apply perm_swap.
  - repeat constructor; simpl; lra.
  - apply Permutation_refl.
  - repeat constructor; simpl; lra.
  - intros Hties.
    specialize (Hties 0%nat 1%nat 1%nat 0%nat).
    assert (Hlt : (1 < 0)%nat) by (apply Hties; (lia || reflexivity)).
    lia.
Qed.

(** ** Ranking: metrics of an example, of a batch, of the run *)

Lemma rank_log_ranked (order : list nat) (p : Z) (rank : nat) :
  ranked_at order p rank -> rank_log order p = Ok (spec_example_metrics rank).
Proof.
  intros (Hnd & Hp & Hrank & Hnth).
  unfold rank_log.
  replace p with (Z.of_nat (Z.to_nat p)) by (apply Z2Nat.id, Hp).
  rewrite (nonzero_unique order (rank - 1) (Z.to_nat p) Hnd Hnth).
  replace (1 + (rank - 1))%nat with rank by lia.
  reflexivity.
Qed.

Lemma mapM_Forall2 {A B : Type} (g : A -> result B) (xs : list A) (ys : list B) :
  Forall2 (fun x y => g x = Ok y) xs ys -> mapM g xs = Ok ys.
Proof.
  induction 1 as [|x y xs ys Hxy _ IH]; [reflexivity|].
  cbn [mapM]. rewrite Hxy, IH. reflexivity.
Qed.

Lemma mapM_length {A B : Type} (g : A -> result B) (xs : list A) (ys : list B) :
  mapM g xs = Ok ys -> List.length ys = List.length xs.
Proof.
  revert ys. induction xs as [|x xs IH]; intros ys; cbn [mapM].
  - intros [= <-]. reflexivity.
  - destruct (g x) as [y|e]; [|discriminate]. cbn [bind].
    destruct (mapM g xs) as [ys'|e]; [|discriminate]. cbn [bind].
    intros [= <-]. simpl. f_equal. apply IH. reflexivity.
Qed.

Lemma item_at_skipn {A : Type} (xs : list A) (k : nat) (x : A) (rest : list A) :
  skipn k xs = x :: rest -> item_at xs k = Ok x /\ skipn (S k) xs = rest.
Proof.
  revert xs. induction k as [|k IH]; intros [|y xs]; cbn [skipn];
    try discriminate.
  - intros [= -> ->]. split; reflexivity.
  - intros Hs. apply IH in Hs as [Hi Hs]. split; [exact Hi | exact Hs].
Qed.

(** The loop over [range(batch_size)] visits the rows and the true entities
    pairwise. *)
Lemma batch_logs_from (rows : list (list nat)) (ps : itensor1) (n k : nat) :
  List.length (skipn k rows) = n -> List.length (skipn k ps) = n ->
  mapM (fun i => row <- item_at rows i ;;
                 p <- item_at ps i ;;
                 rank_log row p) (seq k n)
  = mapM (fun rp => rank_log (fst rp) (snd rp))
         (combine (skipn k rows) (skipn k ps)).
Proof.
  revert k. induction n as [|n IH]; intros k Hr Hp.
  - apply length_zero_iff_nil in Hr. rewrite Hr. reflexivity.
  - destruct (skipn k rows) as [|row rrest] eqn:Er; [discriminate|].
    destruct (skipn k ps) as [|p prest] eqn:Ep; [discriminate|].
    apply item_at_skipn in Er as [Hrow Er'].
    apply item_at_skipn in Ep as [Hpi Ep'].
    cbn [seq mapM combine fst snd]. rewrite Hrow, Hpi. cbn [bind].
    rewrite IH by (rewrite ?Er', ?Ep'; simpl in Hr, Hp; lia).
    rewrite Er', Ep'. reflexivity.
Qed.

Lemma batch_logs_ranked (argsort_descending : vec -> list nat)
      (biased : tensor2) (positive_arg : itensor1) (ranks : list nat) :
  List.length positive_arg = List.length biased ->
  Forall2 (fun row_p rank =>
             ranked_at (argsort_descending (fst row_p)) (snd row_p) rank)
          (combine biased positive_arg) ranks ->
  batch_logs (map argsort_descending biased) positive_arg (List.length biased)
  = Ok (map spec_example_metrics ranks).
Proof.
  intros Hlen Hranks. unfold batch_logs.
  rewrite (batch_logs_from _ _ _ 0)
    by (cbn [skipn]; rewrite ?length_map; congruence).
  cbn [skipn]. apply mapM_Forall2.
  revert positive_arg ranks Hlen Hranks.
  induction biased as [|row biased IH]; intros [|p ps] ranks Hlen Hranks;
    try discriminate.
  - inversion Hranks; subst. constructor.
  - cbn [combine] in Hranks. inversion Hranks as [|? rank ? ranks' Hrank Hrest];
      subst.
    cbn [map combine]. constructor.
    + apply rank_log_ranked, Hrank.
    + apply IH; [simpl in Hlen; lia | exact Hrest].
Qed.

Lemma positive_args_length (batch : TestBatch) (positive_arg : itensor1) :
  positive_args batch = Ok positive_arg ->
  List.length positive_arg = List.length (positive_sample batch).
Proof.
  unfold positive_args, column.
  destruct (String.eqb (mode batch) "head-batch");
    [apply mapM_length|].
  destruct (String.eqb (mode batch) "tail-batch");
    [apply mapM_length | discriminate].
Qed.

Section RankedRun.

Variable argsort_descending : vec -> list nat.
Variable scoring : TestBatch -> result tensor2.
Variable args : Args.
Hypothesis log_steps : test_log_steps args <> 0%Z.

Lemma test_batch_ranked (logs : list Log) (step : Z) (batch : TestBatch)
      (ranks : list nat) :
  batch_ranked argsort_descending scoring batch ranks ->
  test_batch argsort_descending scoring args (logs, step) batch
  = Ok (logs ++ map spec_example_metrics ranks, (step + 1)%Z).
Proof.
  intros (score & biased & positive_arg & Hs & Hb & Hp & Hlen & Hranks).
  unfold test_batch. rewrite Hs, bind_Ok, Hb, bind_Ok, Hp, bind_Ok.
  rewrite <- Hlen.
  rewrite (batch_logs_ranked argsort_descending biased positive_arg ranks)
    by (rewrite ?(positive_args_length batch positive_arg Hp); congruence).
  rewrite bind_Ok.
  destruct (Z.eqb_spec (test_log_steps args) 0); [contradiction|reflexivity].
Qed.

Lemma test_batches_ranked (batches : list TestBatch) (ranks : list (list nat)) :
  Forall2 (batch_ranked argsort_descending scoring) batches ranks ->
  forall (logs : list Log) (step : Z),
    foldM (test_batch argsort_descending scoring args) (logs, step) batches
    = Ok (logs ++ map spec_example_metrics (List.concat ranks),
          (step + Z.of_nat (List.length batches))%Z).
Proof.
  induction 1 as [|batch rs batches ranks Hb _ IH]; intros logs step.
  - cbn [foldM List.concat map List.length]. rewrite app_nil_r.
    f_equal. f_equal. lia.
  - cbn [foldM]. rewrite (test_batch_ranked _ _ _ _ Hb), bind_Ok, IH.
    cbn [List.concat]. rewrite map_app, app_assoc.
    f_equal. f_equal. cbn [List.length]. lia.
Qed.

End RankedRun.

Lemma fold_left_Qplus (xs : list Q) (a : Q) :
  (fold_left Qplus xs a == a + fold_right Qplus 0 xs)%Q.
Proof.
  revert a. induction xs as [|x xs IH]; intros a; cbn [fold_left fold_right].
  - ring.
  - rewrite IH. ring.
Qed.

(** Python's left fold from 0 gives the arithmetic mean. *)
Lemma py_mean_is_mean (xs : list Q) : (py_mean xs == arithmetic_mean xs)%Q.
Proof.
  unfold py_mean, arithmetic_mean, Qdiv.
  rewrite fold_left_Qplus. ring.
Qed.

(** The stage after the scoring call, for any way of scoring a batch: when
    every example of the two loaders is ranked, the loop over the batches
    and the aggregation return, for each metric, the arithmetic mean over
    the examples of both directions pooled of the per-example value:
    1/rank, rank, and the indicators of rank <= 1, 3, 10, with rank the
    1-indexed position of the true entity. *)
Lemma ranked_batches_give_pooled_means :
  forall (argsort_descending : vec -> list nat)
         (scoring : TestBatch -> result tensor2) (args : Args)
         (test_dataloader_head test_dataloader_tail : list TestBatch)
         (ranks_head ranks_tail : list (list nat)),
    test_log_steps args <> 0%Z ->
    Forall2 (batch_ranked argsort_descending scoring)
            test_dataloader_head ranks_head ->
    Forall2 (batch_ranked argsort_descending scoring)
            test_dataloader_tail ranks_tail ->
    List.concat ranks_head ++ List.concat ranks_tail <> [] ->
    exists m : Log,
      test_step_with argsort_descending scoring args
                     test_dataloader_head test_dataloader_tail = Ok m
      /\ (MRR m == arithmetic_mean
                     (map (fun r => 1 / inject_Z (Z.of_nat r))
                          (List.concat ranks_head ++ List.concat ranks_tail)))%Q
      /\ (MR m == arithmetic_mean
                    (map (fun r => inject_Z (Z.of_nat r))
                         (List.concat ranks_head ++ List.concat ranks_tail)))%Q
      /\ (HITS_1 m == arithmetic_mean
                        (map (fun r => if (r <=? 1)%nat then 1 else 0)
                             (List.concat ranks_head ++ List.concat ranks_tail)))%Q
      /\ (HITS_3 m == arithmetic_mean
                        (map (fun r => if (r <=? 3)%nat then 1 else 0)
                             (List.concat ranks_head ++ List.concat ranks_tail)))%Q
      /\ (HITS_10 m == arithmetic_mean
                         (map (fun r => if (r <=? 10)%nat then 1 else 0)
                              (List.concat ranks_head ++ List.concat ranks_tail)))%Q.
Proof.
  intros argsort_descending scoring args heads tails ranks_head ranks_tail
         Hsteps Hhead Htail Hsome.
  unfold test_step_with. cbn [foldM].
  rewrite (test_batches_ranked _ _ _ Hsteps _ _ Hhead), bind_Ok.
  rewrite (test_batches_ranked _ _ _ Hsteps _ _ Htail), !bind_Ok.
  cbn [app]. rewrite <- map_app.
  generalize dependent (List.concat ranks_head ++ List.concat ranks_tail).
  intros [|r pooled] Hsome; [contradiction|].
  eexists. split.
  - cbn [map metrics]. reflexivity.
  - cbn [MRR MR HITS_1 HITS_3 HITS_10].
    change (spec_example_metrics r :: map spec_example_metrics pooled)
      with (map spec_example_metrics (r :: pooled)).
    rewrite !map_map. cbn [spec_example_metrics MRR MR HITS_1 HITS_3 HITS_10].
    repeat split; apply py_mean_is_mean.
Qed.

(** C8: [test_step] records no metric at all.  On one batch per direction
    for the triple (0, 0, 1) over three entities, with any sort, model and
    arguments, the scoring call of line 469 raises before an example is
    ranked, so neither the per-example values nor their means are
    produced. *)
Theorem test_step_records_no_metrics :
  forall (argsort_descending : vec -> list nat) (model : KGEModel) (args : Args),
    test_step argsort_descending model args
              [example_head_batch] [example_tail_batch]
    = Raise (AttributeError "'tuple' object has no attribute 'size'")
    /\ foldM (test_batch argsort_descending (test_step_score model) args)
             ([], 0%Z) [example_head_batch]
       = Raise (AttributeError "'tuple' object has no attribute 'size'").
Proof.
  intros argsort_descending model args. split.
  - unfold test_step, test_step_with. cbn [foldM]. reflexivity.
  - cbn [foldM]. unfold test_batch, test_step_score. reflexivity.
Qed.

(** ** The positive score has one column *)

Lemma mapM_outputs {A B : Type} (g : A -> result B) (xs : list A) (ys : list B) :
  mapM g xs = Ok ys -> Forall (fun y => exists x, In x xs /\ g x = Ok y) ys.
Proof.
  revert ys. induction xs as [|x xs IH]; intros ys; cbn [mapM].
  - intros [= <-]. constructor.
  - intros Hb. apply bind_inv_Ok in Hb as (y & Hy & Hb).
    apply bind_inv_Ok in Hb as (ys' & Hys & [= <-]).
    constructor.
    + exists x. split; [now left | exact Hy].
    + eapply Forall_impl; [|apply IH, Hys].
      intros z (x' & Hin & Hz). exists x'. split; [now right | exact Hz].
Qed.

Lemma mapM2_outputs {A B C : Type} (g : A -> B -> result C)
      (xs : list A) (ys : list B) (zs : list C) :
  mapM2 g xs ys = Ok zs ->
  Forall (fun z => exists x y, In x xs /\ In y ys /\ g x y = Ok z) zs.
Proof.
  revert ys zs. induction xs as [|x xs IH]; intros [|y ys] zs; cbn [mapM2];
    try (intros [= <-]; constructor).
  intros Hb. apply bind_inv_Ok in Hb as (z & Hz & Hb).
  apply bind_inv_Ok in Hb as (zs' & Hzs & [= <-]).
  constructor.
  - exists x, y. repeat split; [now left | now left | exact Hz].
  - eapply Forall_impl; [|apply IH, Hzs].
    intros z' (x' & y' & Hx & Hy & Hz').
    exists x', y'. repeat split; [now right | now right | exact Hz'].
Qed.

Lemma broadcast_outputs {A B C : Type} (g : A -> B -> result C)
      (xs : list A) (ys : list B) (zs : list C) :
  broadcast g xs ys = Ok zs ->
  Forall (fun z => exists x y, In x xs /\ In y ys /\ g x y = Ok z) zs.
Proof.
  unfold broadcast.
  destruct (List.length xs =? List.length ys)%nat; [apply mapM2_outputs|].
  destruct xs as [|x [|x' xs]]; destruct ys as [|y [|y' ys]];
    try discriminate; intros Hm; apply mapM_outputs in Hm;
    (eapply Forall_impl; [|exact Hm]); cbn beta.
  all: try (intros z (u & Hin & Hz); exists x, u;
            repeat split; [now left | exact Hin | exact Hz]).
  all: try (intros z (u & Hin & Hz); exists u, y;
            repeat split; [exact Hin | now left | exact Hz]).
Qed.

Lemma mop_one_candidate (f : R -> R -> R) (x y z : tensor2) :
  List.length x = 1%nat -> List.length y = 1%nat ->
  mop f x y = Ok z -> List.length z = 1%nat.
Proof.
  intros Hx Hy.
  apply length_one in Hx as [u ->]. apply length_one in Hy as [v ->].
  unfold mop, broadcast. cbn.
  destruct (vop f u v); cbn; [intros [= <-]; reflexivity | discriminate].
Qed.

Lemma top_one_candidate (f : R -> R -> R) (a b c : tensor3) :
  one_candidate a -> one_candidate b -> top f a b = Ok c -> one_candidate c.
Proof.
  intros Ha Hb Hc. unfold one_candidate in *.
  apply broadcast_outputs in Hc.
  rewrite Forall_forall in Ha, Hb, Hc |- *.
  intros z Hz. destruct (Hc z Hz) as (x & y & Hx & Hy & Hxy).
  eapply mop_one_candidate; [apply Ha, Hx | apply Hb, Hy | exact Hxy].
Qed.

Lemma unsqueeze1_one_candidate (t : tensor2) : one_candidate (unsqueeze1 t).
Proof.
  unfold one_candidate, unsqueeze1. apply Forall_forall. intros row Hrow.
  apply in_map_iff in Hrow as [v [<- _]]. reflexivity.
Qed.

Lemma rows_one_candidate (g : vec -> R) (t : tensor3) :
  one_candidate t -> one_candidate (map (map g) t).
Proof.
  unfold one_candidate. rewrite !Forall_forall. intros Ht row Hrow.
  apply in_map_iff in Hrow as [m [<- Hm]].
  rewrite length_map. apply Ht, Hm.
Qed.

(** Whatever the encoder returns, a score that [forward] computes in
    'single' mode has one entry per example: the flattening [squeeze1] is
    what [squeeze(dim = 1)] does to it. *)
Lemma forward_single_one_column (self : KGEModel)
      (sample_triple sample_tem negative_sample : pyval) (score : tensor2) :
  forward self sample_triple sample_tem negative_sample "single" = Ok score ->
  one_candidate score.
Proof.
  unfold forward. cbn [String.eqb Ascii.eqb Bool.eqb].
  intros Hf. apply bind_inv_Ok in Hf as ([[[head relation] tem] tail] & Hg & Hm).
  repeat (apply bind_inv_Ok in Hg as (? & _ & Hg)).
  injection Hg as <- <- <- <-.
  unfold model_func in Hm.
  repeat (match type of Hm with
          | (if ?c then _ else _) = Ok _ => destruct c
          end; try discriminate).
  - unfold TATransE in Hm.
    apply bind_inv_Ok in Hm as (rseq & _ & Hm).
    apply bind_inv_Ok in Hm as (s & Hs & [= <-]).
    cbn [is_head_batch String.eqb Ascii.eqb Bool.eqb] in Hs.
    apply bind_inv_Ok in Hs as (s0 & Hs0 & Hs).
    unfold gamma_minus, norm1_dim2. rewrite map_map.
    unfold one_candidate. rewrite Forall_forall. intros row Hrow.
    apply in_map_iff in Hrow as [m [<- Hin]]. rewrite !length_map.
    assert (Hone : one_candidate s).
    { eapply top_one_candidate; [| |exact Hs];
        [eapply top_one_candidate; [| |exact Hs0]|];
        apply unsqueeze1_one_candidate. }
    unfold one_candidate in Hone. rewrite Forall_forall in Hone.
    apply Hone, Hin.
  - unfold TADistMult in Hm.
    apply bind_inv_Ok in Hm as (rseq & _ & Hm).
    apply bind_inv_Ok in Hm as (s & Hs & [= <-]).
    cbn [is_head_batch String.eqb Ascii.eqb Bool.eqb] in Hs.
    apply bind_inv_Ok in Hs as (s0 & Hs0 & Hs).
    apply rows_one_candidate.
    eapply top_one_candidate; [| |exact Hs];
      [eapply top_one_candidate; [| |exact Hs0]|];
      apply unsqueeze1_one_candidate.
Qed.

(** * Further properties of the code *)

(** ** forward: dispatch and errors *)

Lemma model_func_static (self : KGEModel) (head relation : tensor3)
      (tem : option tensor3) (tail : tensor3) (mode : string) :
  In (model_name self) static_models ->
  model_func self head relation tem tail mode
  = Raise (takes_four (model_name self)).
Proof.
  intros Hin. unfold model_func, static_models in *.
  cbn [In] in Hin.
  destruct Hin as [<-|[<-|[<-|[<-|[<-|[]]]]]]; reflexivity.
Qed.

Lemma forward_static_raises (self : KGEModel)
      (sample_triple sample_tem negative_sample : pyval) (mode : string) :
  In (model_name self) static_models ->
  exists e : exn,
    forward self sample_triple sample_tem negative_sample mode = Raise e.
Proof.
  intros Hin.
  destruct (forward self sample_triple sample_tem negative_sample mode)
    as [score|e] eqn:Hf; [exfalso | now exists e].
  unfold forward in Hf.
  apply bind_inv_Ok in Hf as ([[[head relation] tm] tail] & _ & Hm).
  rewrite model_func_static in Hm by exact Hin. discriminate.
Qed.

(** X1: for TransE, DistMult, ComplEx, RotatE and pRotatE the dispatch of
    [forward] hands five tensors to a method of four, so [forward] raises on
    every input in every mode, and so does [train_step]. *)
Theorem static_models_never_score :
  forall (self : KGEModel) (sample_triple sample_tem negative_sample : pyval)
         (mode : string) (args : Args) (batch : TrainBatch),
    In (model_name self) static_models ->
    (exists e : exn,
        forward self sample_triple sample_tem negative_sample mode = Raise e)
    /\ (exists e : exn, train_step self args batch = Raise e).
Proof.
  intros self t tem neg mode args batch Hin.
  split; [apply forward_static_raises, Hin|].
  unfold train_step.
  destruct (forward_static_raises
              self (PIntTensor (positive_sample_triple batch))
              (PIntTensor (positive_sample_tem batch))
              (PIntTensor (train_negative_sample batch)) (train_mode batch) Hin)
    as [e ->].
  now exists e.
Qed.

Lemma static_models_never_score_witness :
  (exists e : exn,
      forward example_model (PIntTensor [[0; 0; 1]%Z]) (PIntTensor [[0%Z]])
              PNone "single" = Raise e)
  /\ (exists e : exn,
         train_step example_model example_args
                    {| positive_sample_triple := [[0; 0; 1]%Z];
                       positive_sample_tem := [[0%Z]];
                       train_negative_sample := [[2; 3]%Z];
                       subsampling_weight := [1];
                       train_mode := "tail-batch" |} = Raise e).
Proof.
  apply (static_models_never_score example_model).
  cbn. right. right. right. left. reflexivity.
Defined.

(** X2: [test_step] returns metrics on no input at all: with a batch in
    either loader the scoring call raises [AttributeError], and with two
    empty loaders [logs[0]] raises [IndexError]. *)
Theorem test_step_always_raises :
  forall (argsort_descending : vec -> list nat) (model : KGEModel) (args : Args)
         (test_dataloader_head test_dataloader_tail : list TestBatch),
    test_step argsort_descending model args
              test_dataloader_head test_dataloader_tail
    = match test_dataloader_head ++ test_dataloader_tail with
      | [] => Raise (IndexError "list index out of range")
      | _ :: _ => Raise (AttributeError "'tuple' object has no attribute 'size'")
      end.
Proof.
  intros argsort_descending model args heads tails.
  unfold test_step, test_step_with.
  destruct heads as [|b heads]; [destruct tails as [|b tails]|];
    reflexivity.
Qed.

(** X3: a temporal model cannot score an empty batch: the loop over the
    time contexts leaves [tem] at [None] and [get_rseq] fails on its
    shape. *)
Theorem forward_empty_batch :
  forall (self : KGEModel) (negative_sample : pyval),
    model_name self = "TATransE"%string \/ model_name self = "TADistMult"%string ->
    forward self (PIntTensor []) (PIntTensor []) negative_sample "single"
    = Raise (AttributeError "'NoneType' object has no attribute 'shape'").
Proof.
  intros self neg Hname. unfold forward, model_func.
  cbn [String.eqb Ascii.eqb Bool.eqb as_tensor column index_select
       gather_tem mapM bind unsqueeze1 map].
  destruct Hname as [-> | ->]; reflexivity.
Qed.

Lemma forward_empty_batch_witness :
  forward example_ta_model (PIntTensor []) (PIntTensor []) PNone "single"
  = Raise (AttributeError "'NoneType' object has no attribute 'shape'").
Proof.
  apply (forward_empty_batch example_ta_model PNone). right. reflexivity.
Defined.

(** ** The lookup of a row *)

Lemma select_row_spec (table : tensor2) (i : Z) :
  select_row table i
  = if in_table table i then Ok (nth (Z.to_nat i) table [])
    else Raise (IndexError "index out of range in self").
Proof.
  unfold select_row, in_table.
  destruct (Z.ltb_spec i 0) as [Hneg|Hpos].
  - destruct (Z.leb_spec 0 i); [lia | reflexivity].
  - destruct (Z.leb_spec 0 i) as [_|]; [|lia]. cbn [andb].
    destruct (Z.ltb_spec i (Z.of_nat (List.length table))) as [Hin|Hout].
    + destruct (nth_error table (Z.to_nat i)) as [row|] eqn:Hrow.
      * f_equal. symmetry. apply nth_error_nth, Hrow.
      * apply nth_error_None in Hrow. lia.
    + destruct (nth_error table (Z.to_nat i)) as [row|] eqn:Hrow;
        [|reflexivity].
      assert (Hsome : nth_error table (Z.to_nat i) <> None) by congruence.
      apply nth_error_Some in Hsome. lia.
Qed.

(** ** One triple: the two groupings of a score *)

Section Regrouping.

Variables f g : R -> R -> R.
Hypothesis regroup : forall x y z, f x (g y z) = g (f x y) z.

Lemma zip_with_regroup (h r t : vec) :
  zip_with f h (zip_with g r t) = zip_with g (zip_with f h r) t.
Proof.
  revert r t. induction h as [|x h IH]; intros [|y r] [|z t]; try reflexivity.
  rewrite !zip_with_cons, IH, regroup. reflexivity.
Qed.

Lemma zip_with_regroup_l (x : R) (r t : vec) :
  zip_with g (map (f x) r) t = map (f x) (zip_with g r t).
Proof.
  revert t. induction r as [|y r IH]; intros [|z t]; try reflexivity.
  cbn [map]. rewrite !zip_with_cons. cbn [map].
  rewrite IH, regroup. reflexivity.
Qed.

Lemma zip_with_regroup_r (z : R) (h r : vec) :
  zip_with f h (map (fun a => g a z) r) = map (fun a => g a z) (zip_with f h r).
Proof.
  revert r. induction h as [|x h IH]; intros [|y r]; try reflexivity.
  cbn [map]. rewrite !zip_with_cons. cbn [map].
  rewrite IH, regroup. reflexivity.
Qed.

Lemma zip_with_regroup_mid (y : R) (h t : vec) :
  zip_with f h (map (g y) t) = zip_with g (map (fun a => f a y) h) t.
Proof.
  revert t. induction h as [|x h IH]; intros [|z t]; try reflexivity.
  cbn [map]. rewrite !zip_with_cons, IH, regroup. reflexivity.
Qed.

Lemma vop_regroup_l (x : R) (r t : vec) :
  vop g (map (f x) r) t = (p <- vop g r t ;; Ok (map (f x) p)).
Proof.
  destruct (vop_cases r t) as [He|[[y ->]|[[z ->]|[Hne [Hr Ht]]]]].
  - rewrite !vop_same_length by (rewrite ?length_map; assumption).
    rewrite bind_Ok, zip_with_regroup_l. reflexivity.
  - cbn [map]. rewrite !vop_singleton_l, bind_Ok, map_map.
    f_equal. apply map_ext. intros a. symmetry. apply regroup.
  - rewrite !vop_singleton_r, bind_Ok, !map_map.
    f_equal. apply map_ext. intros a. symmetry. apply regroup.
  - rewrite !vop_mismatch by (rewrite ?length_map; assumption). reflexivity.
Qed.

Lemma vop_regroup_r (z : R) (h r : vec) :
  vop f h (map (fun a => g a z) r)
  = (p <- vop f h r ;; Ok (map (fun a => g a z) p)).
Proof.
  destruct (vop_cases h r) as [He|[[x ->]|[[y ->]|[Hne [Hh Hr]]]]].
  - rewrite !vop_same_length by (rewrite ?length_map; assumption).
    rewrite bind_Ok, zip_with_regroup_r. reflexivity.
  - rewrite !vop_singleton_l, bind_Ok, !map_map.
    f_equal. apply map_ext. intros a. apply regroup.
  - cbn [map]. rewrite !vop_singleton_r, bind_Ok, map_map.
    f_equal. apply map_ext. intros a. apply regroup.
  - rewrite !vop_mismatch by (rewrite ?length_map; assumption). reflexivity.
Qed.

Lemma vop_regroup_mid (y : R) (h t : vec) :
  vop f h (map (g y) t) = vop g (map (fun a => f a y) h) t.
Proof.
  destruct (vop_cases h t) as [He|[[x ->]|[[z ->]|[Hne [Hh Ht]]]]].
  - rewrite !vop_same_length by (rewrite ?length_map; assumption).
    rewrite zip_with_regroup_mid. reflexivity.
  - cbn [map]. rewrite !vop_singleton_l, map_map.
    f_equal. apply map_ext. intros a. apply regroup.
  - cbn [map]. rewrite !vop_singleton_r, map_map.
    f_equal. apply map_ext. intros a. apply regroup.
  - rewrite !vop_mismatch by (rewrite ?length_map; assumption). reflexivity.
Qed.

(** Broadcasting keeps the regrouping of two operations, size errors
    included. *)
Lemma vop_regroup (h r t : vec) :
  (p <- vop g r t ;; vop f h p) = (p <- vop f h r ;; vop g p t).
Proof.
  destruct (Nat.eq_dec (List.length h) 1) as [Hh|Hh].
  { apply length_one in Hh as [x ->].
    rewrite (vop_singleton_l f x r), bind_Ok, vop_regroup_l.
    destruct (vop g r t) as [p|e]; [|reflexivity].
    rewrite !bind_Ok. apply vop_singleton_l. }
  destruct (Nat.eq_dec (List.length t) 1) as [Ht|Ht].
  { apply length_one in Ht as [z ->].
    rewrite (vop_singleton_r g r z), bind_Ok, vop_regroup_r.
    destruct (vop f h r) as [p|e]; [|reflexivity].
    rewrite !bind_Ok. symmetry. apply vop_singleton_r. }
  destruct (Nat.eq_dec (List.length r) 1) as [Hr|Hr].
  { apply length_one in Hr as [y ->].
    rewrite vop_singleton_l, vop_singleton_r, !bind_Ok.
    apply vop_regroup_mid. }
  destruct (Nat.eq_dec (List.length r) (List.length t)) as [Hrt|Hrt];
    destruct (Nat.eq_dec (List.length h) (List.length r)) as [Hhr|Hhr].
  - rewrite (vop_same_length g r t Hrt), (vop_same_length f h r Hhr), !bind_Ok.
    rewrite !vop_same_length
      by (rewrite ?zip_with_length by assumption; congruence).
    rewrite zip_with_regroup. reflexivity.
  - rewrite (vop_same_length g r t Hrt), bind_Ok.
    rewrite (vop_mismatch f h r) by assumption.
    rewrite vop_mismatch
      by (rewrite ?zip_with_length by assumption; assumption).
    reflexivity.
  - rewrite (vop_mismatch g r t) by assumption.
    rewrite (vop_same_length f h r Hhr), !bind_Ok.
    rewrite vop_mismatch
      by (rewrite ?zip_with_length by assumption; congruence).
    reflexivity.
  - rewrite (vop_mismatch g r t), (vop_mismatch f h r) by assumption.
    reflexivity.
Qed.

End Regrouping.

Lemma vop_translate (h r t : vec) :
  (d <- vop Rminus r t ;; vop Rplus h d) = (s <- vop Rplus h r ;; vop Rminus s t).
Proof. apply vop_regroup. intros x y z. ring. Qed.

Lemma translation_single (h r t : vec) (mode : string) :
  (if is_head_batch mode
   then d <- tsub [[r]] [[t]] ;; tadd [[h]] d
   else s <- tadd [[h]] [[r]] ;; tsub s [[t]])
  = (v <- (if is_head_batch mode
           then d <- vop Rminus r t ;; vop Rplus h d
           else s <- vop Rplus h r ;; vop Rminus s t) ;;
     Ok [[v]]).
Proof.
  unfold tadd, tsub.
  destruct (is_head_batch mode); rewrite top_single.
  - destruct (vop Rminus r t) as [p|e]; [|reflexivity].
    rewrite !bind_Ok. apply top_single.
  - destruct (vop Rplus h r) as [p|e]; [|reflexivity].
    rewrite !bind_Ok. apply top_single.
Qed.

Lemma translation_single_modes (h r t : vec) :
  (d <- tsub [[r]] [[t]] ;; tadd [[h]] d)
  = (s <- tadd [[h]] [[r]] ;; tsub s [[t]]).
Proof.
  pose proof (translation_single h r t "head-batch") as Hhead.
  pose proof (translation_single h r t "tail-batch") as Htail.
  cbn [is_head_batch String.eqb Ascii.eqb Bool.eqb] in Hhead, Htail.
  rewrite Hhead, Htail, vop_translate. reflexivity.
Qed.

(** X5: over the reals, on one triple of a common width, TransE returns
    one and the same score in head-batch and in tail-batch mode, and pRotatE
    returns the same result in both: the two groupings of
    head + relation - tail agree. *)
Theorem TransE_pRotatE_mode_independent :
  forall (self : KGEModel) (h r t : vec),
    List.length h = List.length r -> List.length r = List.length t ->
    (exists score : R,
        TransE self [[h]] [[r]] [[t]] "head-batch" = Ok [[score]]
        /\ TransE self [[h]] [[r]] [[t]] "tail-batch" = Ok [[score]])
    /\ pRotatE self [[h]] [[r]] [[t]] "head-batch"
       = pRotatE self [[h]] [[r]] [[t]] "tail-batch".
Proof.
  intros self h r t Hhr Hrt. split.
  - unfold TransE. rewrite !translation_single.
    cbn [is_head_batch String.eqb Ascii.eqb Bool.eqb].
    rewrite vop_translate.
    rewrite (vop_same_length Rplus h r Hhr), bind_Ok.
    rewrite vop_same_length by solve_length.
    eexists. split; reflexivity.
  - unfold pRotatE. cbv zeta.
    cbn [is_head_batch String.eqb Ascii.eqb Bool.eqb tmap map].
    rewrite translation_single_modes. reflexivity.
Qed.

Lemma TransE_pRotatE_mode_independent_witness :
  (exists score : R,
      TransE example_model [[ [1; 0] ]] [[ [0; 1] ]] [[ [1; 1] ]] "head-batch"
      = Ok [[score]]
      /\ TransE example_model [[ [1; 0] ]] [[ [0; 1] ]] [[ [1; 1] ]] "tail-batch"
         = Ok [[score]])
  /\ pRotatE example_model [[ [1; 0] ]] [[ [0; 1] ]] [[ [1; 1] ]] "head-batch"
     = pRotatE example_model [[ [1; 0] ]] [[ [0; 1] ]] [[ [1; 1] ]] "tail-batch".
Proof.
  apply (TransE_pRotatE_mode_independent example_model [1; 0] [0; 1] [1; 1]);
    reflexivity.
Defined.

Lemma TATransE_one (self : KGEModel) (relation : tensor3)
      (tem : option tensor3) (h v t : vec) (mode : string) :
  get_rseq self relation tem = Ok [v] ->
  List.length h = List.length v -> List.length t = List.length v ->
  TATransE self [[h]] relation tem [[t]] mode
  = Ok [[gamma self
         - vsum (map Rabs
                     (if is_head_batch mode
                      then zip_with Rplus h (zip_with Rminus v t)
                      else zip_with Rminus (zip_with Rplus h v) t))]].
Proof.
  intros Hv Hh Ht. unfold TATransE. rewrite Hv, bind_Ok.
  cbn [unsqueeze1 map]. rewrite translation_single.
  destruct (is_head_batch mode);
    rewrite vop_same_length, bind_Ok by solve_length;
    rewrite vop_same_length by solve_length; reflexivity.
Qed.

Lemma TADistMult_one (self : KGEModel) (relation : tensor3)
      (tem : option tensor3) (h v t : vec) (mode : string) :
  get_rseq self relation tem = Ok [v] ->
  List.length h = List.length v -> List.length t = List.length v ->
  TADistMult self [[h]] relation tem [[t]] mode
  = Ok [[vsum (if is_head_batch mode
               then zip_with Rmult h (zip_with Rmult v t)
               else zip_with Rmult (zip_with Rmult h v) t)]].
Proof.
  intros Hv Hh Ht. unfold TADistMult. rewrite Hv, bind_Ok.
  cbn [unsqueeze1 map]. unfold tmul.
  destruct (is_head_batch mode);
    rewrite top_single_same, bind_Ok by solve_length;
    rewrite top_single_same by solve_length; reflexivity.
Qed.

(** X6: over the reals, when the encoder returns one sequence vector, the
    temporal models TATransE and TADistMult each return one and the same
    score for a triple of the width of that vector in head-batch and in
    tail-batch mode. *)
Theorem temporal_models_mode_independent :
  forall (self : KGEModel) (relation : tensor3) (tem : option tensor3)
         (h t rseq : vec),
    get_rseq self relation tem = Ok [rseq] ->
    List.length h = List.length rseq -> List.length t = List.length rseq ->
    (exists score : R,
        TATransE self [[h]] relation tem [[t]] "head-batch" = Ok [[score]]
        /\ TATransE self [[h]] relation tem [[t]] "tail-batch" = Ok [[score]])
    /\ (exists score : R,
           TADistMult self [[h]] relation tem [[t]] "head-batch" = Ok [[score]]
           /\ TADistMult self [[h]] relation tem [[t]] "tail-batch" = Ok [[score]]).
Proof.
  intros self relation tem h t rseq Hrseq Hh Ht.
  rewrite !(TATransE_one self relation tem h rseq t _ Hrseq Hh Ht).
  rewrite !(TADistMult_one self relation tem h rseq t _ Hrseq Hh Ht).
  cbn [is_head_batch String.eqb Ascii.eqb Bool.eqb].
  rewrite (zip_with_regroup Rplus Rminus) by (intros; ring).
  rewrite (zip_with_assoc Rmult) by (intros; ring).
  split; eexists; split; reflexivity.
Qed.

Lemma temporal_models_mode_independent_witness :
  (exists score : R,
      TATransE example_ta_model [[ [1; 2] ]] [[ [1; 1] ]]
               (Some [[ [1; 0]; [1; 0] ]]) [[ [3; 4] ]] "head-batch"
      = Ok [[score]]
      /\ TATransE example_ta_model [[ [1; 2] ]] [[ [1; 1] ]]
                  (Some [[ [1; 0]; [1; 0] ]]) [[ [3; 4] ]] "tail-batch"
         = Ok [[score]])
  /\ (exists score : R,
         TADistMult example_ta_model [[ [1; 2] ]] [[ [1; 1] ]]
                    (Some [[ [1; 0]; [1; 0] ]]) [[ [3; 4] ]] "head-batch"
         = Ok [[score]]
         /\ TADistMult example_ta_model [[ [1; 2] ]] [[ [1; 1] ]]
                       (Some [[ [1; 0]; [1; 0] ]]) [[ [3; 4] ]] "tail-batch"
            = Ok [[score]]).
Proof.
  apply (temporal_models_mode_independent
           example_ta_model [[ [1; 1] ]] (Some [[ [1; 0]; [1; 0] ]])
           [1; 2] [3; 4] [1; 0]);
    reflexivity.
Defined.

Lemma zip_with_comm {A B : Type} (f : A -> A -> B) (xs ys : list A) :
  (forall x y, f x y = f y x) -> zip_with f xs ys = zip_with f ys xs.
Proof.
  intros Hc. revert ys. induction xs as [|x xs IH]; intros [|y ys];
    try reflexivity.
  rewrite !zip_with_cons, IH, Hc. reflexivity.
Qed.

Lemma product_reversed (h r t : vec) :
  zip_with Rmult h (zip_with Rmult r t) = zip_with Rmult t (zip_with Rmult r h).
Proof.
  rewrite (zip_with_assoc Rmult) by (intros; ring).
  rewrite (zip_with_comm Rmult (zip_with Rmult h r) t) by (intros; ring).
  rewrite (zip_with_comm Rmult h r) by (intros; ring). reflexivity.
Qed.

(** X7: over the reals, DistMult cannot tell a triple of a common width
    from its reverse: exchanging head and tail leaves the score unchanged in
    every mode. *)
Theorem DistMult_symmetric :
  forall (self : KGEModel) (h r t : vec) (mode : string),
    List.length h = List.length r -> List.length r = List.length t ->
    exists score : R,
      DistMult self [[h]] [[r]] [[t]] mode = Ok [[score]]
      /\ DistMult self [[t]] [[r]] [[h]] mode = Ok [[score]].
Proof.
  intros self h r t mode Hhr Hrt. rewrite !DistMult_single.
  destruct (is_head_batch mode).
  - rewrite (vop_same_length Rmult r t), (vop_same_length Rmult r h), !bind_Ok
      by solve_length.
    rewrite !vop_same_length by solve_length.
    rewrite !bind_Ok, product_reversed. eexists. split; reflexivity.
  - rewrite (vop_same_length Rmult h r), (vop_same_length Rmult t r), !bind_Ok
      by solve_length.
    rewrite !vop_same_length by solve_length.
    rewrite !bind_Ok.
    rewrite <- !(zip_with_assoc Rmult) by (intros; ring).
    rewrite product_reversed. eexists. split; reflexivity.
Qed.

Lemma DistMult_symmetric_witness :
  exists score : R,
    DistMult example_model [[ [1; 2] ]] [[ [3; 4] ]] [[ [5; 6] ]] "tail-batch"
    = Ok [[score]]
    /\ DistMult example_model [[ [5; 6] ]] [[ [3; 4] ]] [[ [1; 2] ]] "tail-batch"
       = Ok [[score]].
Proof.
  apply (DistMult_symmetric example_model [1; 2] [3; 4] [5; 6] "tail-batch");
    reflexivity.
Defined.

(** ** RotatE on one triple *)

Ltac solve_widths :=
  repeat first [rewrite length_map | rewrite zip_with_length by solve_widths];
  solve [assumption | congruence | lia].

Lemma stack_norm_single (a b : vec) :
  List.length a = List.length b ->
  stack_norm [[a]] [[b]]
  = Ok [[zip_with (fun x y => sqrt (x * x + y * y)) a b]].
Proof.
  intros Hl. unfold stack_norm, exact2.
  cbn [List.length Nat.eqb mapM2].
  rewrite (proj2 (Nat.eqb_eq _ _) Hl), mapM2_pure. reflexivity.
Qed.

(** Rotating the tail back by the phase and rotating the head forward leave
    the same distance, component by component. *)
Lemma rotation_assembly (phase rh ih rt it : vec) :
  zip_with (fun x y => sqrt (x * x + y * y))
    (zip_with Rminus
       (zip_with Rplus (zip_with Rmult (map cos phase) rt)
                       (zip_with Rmult (map sin phase) it)) rh)
    (zip_with Rminus
       (zip_with Rminus (zip_with Rmult (map cos phase) it)
                        (zip_with Rmult (map sin phase) rt)) ih)
  = zip_with (fun x y => sqrt (x * x + y * y))
      (zip_with Rminus
         (zip_with Rminus (zip_with Rmult rh (map cos phase))
                          (zip_with Rmult ih (map sin phase))) rt)
      (zip_with Rminus
         (zip_with Rplus (zip_with Rmult rh (map sin phase))
                         (zip_with Rmult ih (map cos phase))) it).
Proof.
  revert rh ih rt it.
  induction phase as [|p phase IH]; intros [|a rh] [|b ih] [|c rt] [|e it];
    try reflexivity.
  cbn [map]. rewrite !zip_with_cons. f_equal; [|apply IH].
  f_equal.
  pose proof (sin2_cos2 p) as Hunit. unfold Rsqr in Hunit.
  match goal with
  | |- ?L = ?M =>
      apply Rminus_diag_uniq;
      replace (L - M)
        with ((sin p * sin p + cos p * cos p - 1)
              * (c * c + e * e - a * a - b * b)) by ring
  end.
  rewrite Hunit. ring.
Qed.

(** X8: over the reals, on one triple whose head and tail have twice the
    width of the relation, the shape the constructor gives RotatE, the
    head-batch and the tail-batch formula return one and the same score. *)
Theorem RotatE_mode_independent :
  forall (self : KGEModel) (h r t : vec) (d : nat),
    List.length h = (2 * d)%nat -> List.length r = d ->
    List.length t = (2 * d)%nat ->
    exists score : R,
      RotatE self [[h]] [[r]] [[t]] "head-batch" = Ok [[score]]
      /\ RotatE self [[h]] [[r]] [[t]] "tail-batch" = Ok [[score]].
Proof.
  intros self h r t d Hh Hr Ht. unfold RotatE. cbv zeta.
  rewrite (chunk2_single h d), (chunk2_single t d) by assumption.
  destruct (chunk_vec_even h d Hh) as (_ & Hrh & Hih).
  destruct (chunk_vec_even t d Ht) as (_ & Hrt & Hit).
  cbn [bind is_head_batch String.eqb Ascii.eqb Bool.eqb tmap map].
  unfold tmul, tadd, tsub.
  repeat (rewrite top_single_same by solve_widths; rewrite ?bind_Ok).
  cbn [bind].
  rewrite !stack_norm_single by solve_widths.
  rewrite rotation_assembly. eexists. split; reflexivity.
Qed.

Lemma RotatE_mode_independent_witness :
  exists score : R,
    RotatE example_model [[ [1; 0] ]] [[ [1] ]] [[ [0; 1] ]] "head-batch"
    = Ok [[score]]
    /\ RotatE example_model [[ [1; 0] ]] [[ [1] ]] [[ [0; 1] ]] "tail-batch"
       = Ok [[score]].
Proof.
  apply (RotatE_mode_independent example_model [1; 0] [1] [0; 1] 1);
    reflexivity.
Defined.

(** ** Distance scores and the margin *)

Lemma exact2_outputs {A B C : Type} (g : A -> B -> result C)
      (xs : list A) (ys : list B) (zs : list C) :
  exact2 g xs ys = Ok zs ->
  Forall (fun z => exists x y, In x xs /\ In y ys /\ g x y = Ok z) zs.
Proof.
  unfold exact2.
  destruct (List.length xs =? List.length ys)%nat;
    [apply mapM2_outputs | discriminate].
Qed.

Lemma stack_norm_nonneg (re im s : tensor3) :
  stack_norm re im = Ok s -> Forall (Forall (Forall (fun x => 0 <= x))) s.
Proof.
  unfold stack_norm. intros Hs. apply exact2_outputs in Hs.
  eapply Forall_impl; [|exact Hs]. cbn beta.
  intros m (x & y & _ & _ & Hm). apply exact2_outputs in Hm.
  eapply Forall_impl; [|exact Hm]. cbn beta.
  intros v (x' & y' & _ & _ & Hv). apply exact2_outputs in Hv.
  eapply Forall_impl; [|exact Hv]. cbn beta.
  intros z (a & b & _ & _ & [= <-]). apply sqrt_pos.
Qed.

Lemma vsum_abs_nonneg (v : vec) : 0 <= vsum (map Rabs v).
Proof.
  apply vsum_nonneg, Forall_forall. intros y Hy.
  apply in_map_iff in Hy as [x [<- _]]. apply Rabs_pos.
Qed.

Lemma gamma_minus_norm1 (self : KGEModel) (t : tensor3) :
  Forall (Forall (fun x => x <= gamma self)) (gamma_minus self (norm1_dim2 t)).
Proof.
  unfold gamma_minus, norm1_dim2. rewrite map_map.
  apply Forall_forall. intros row Hrow.
  apply in_map_iff in Hrow as [m [<- _]]. rewrite map_map.
  apply Forall_forall. intros x Hx.
  apply in_map_iff in Hx as [v [<- _]].
  pose proof (vsum_abs_nonneg v). lra.
Qed.

Lemma gamma_minus_sum_nonneg (self : KGEModel) (t : tensor3) :
  Forall (Forall (Forall (fun x => 0 <= x))) t ->
  Forall (Forall (fun x => x <= gamma self)) (gamma_minus self (sum_dim2 t)).
Proof.
  intros Ht. unfold gamma_minus, sum_dim2. rewrite map_map.
  rewrite Forall_forall in Ht.
  apply Forall_forall. intros row Hrow.
  apply in_map_iff in Hrow as [m [<- Hm]]. rewrite map_map.
  specialize (Ht m Hm). rewrite Forall_forall in Ht.
  apply Forall_forall. intros x Hx.
  apply in_map_iff in Hx as [v [<- Hv]].
  pose proof (vsum_nonneg v (Ht v Hv)). lra.
Qed.

(** X9: a score of the distance models TransE, TATransE and RotatE never
    exceeds the margin gamma, in any mode and for any shapes. *)
Theorem distance_scores_at_most_gamma :
  forall (self : KGEModel) (head relation : tensor3) (tem : option tensor3)
         (tail : tensor3) (mode : string) (score : tensor2),
    TransE self head relation tail mode = Ok score
    \/ TATransE self head relation tem tail mode = Ok score
    \/ RotatE self head relation tail mode = Ok score ->
    Forall (Forall (fun x => x <= gamma self)) score.
Proof.
  intros self head relation tem tail mode score [H|[H|H]].
  - unfold TransE in H. apply bind_inv_Ok in H as (s & _ & [= <-]).
    apply gamma_minus_norm1.
  - unfold TATransE in H. apply bind_inv_Ok in H as (rseq & _ & H).
    apply bind_inv_Ok in H as (s & _ & [= <-]).
    apply gamma_minus_norm1.
  - unfold RotatE in H. cbv zeta in H.
    apply bind_inv_Ok in H as ([re_head im_head] & _ & H).
    apply bind_inv_Ok in H as ([re_tail im_tail] & _ & H).
    apply bind_inv_Ok in H as ([re_score im_score] & _ & H).
    apply bind_inv_Ok in H as (s & Hs & [= <-]).
    apply gamma_minus_sum_nonneg. eapply stack_norm_nonneg, Hs.
Qed.

Lemma distance_scores_at_most_gamma_witness :
  Forall (Forall (fun x => x <= gamma example_model))
         [[6 - (Rabs (1 + 0 - 1) + (Rabs (0 + 1 - 1) + 0))]].
Proof.
  apply (distance_scores_at_most_gamma
           example_model [[ [1; 0] ]] [[ [0; 1] ]] None [[ [1; 1] ]]
           "tail-batch").
  left. reflexivity.
Defined.

Lemma vsum_abs_diagonal (v : vec) : vsum (map Rabs (zip_with Rminus v v)) = 0.
Proof.
  induction v as [|x v IH]; [reflexivity|].
  rewrite zip_with_cons. cbn [map vsum fold_right].
  fold (vsum (map Rabs (zip_with Rminus v v))).
  rewrite IH, Rminus_diag, Rabs_R0. lra.
Qed.

(** X10: TransE gives a perfect translation the margin itself: in every
    mode but head-batch, when head + relation equals tail component by
    component the score of the triple is gamma, the bound no score of
    TransE exceeds. *)
Theorem perfect_translation_scores_gamma :
  forall (self : KGEModel) (h r t : vec) (mode : string),
    is_head_batch mode = false ->
    List.length h = List.length r ->
    zip_with Rplus h r = t ->
    TransE self [[h]] [[r]] [[t]] mode = Ok [[gamma self]].
Proof.
  intros self h r t mode Hmode Hhr Ht. subst t.
  unfold TransE. rewrite translation_single, Hmode.
  rewrite (vop_same_length Rplus h r Hhr), bind_Ok.
  rewrite vop_same_length by reflexivity.
  cbn [bind]. unfold gamma_minus, norm1_dim2. cbn [map].
  rewrite vsum_abs_diagonal. do 3 f_equal. lra.
Qed.

Lemma perfect_translation_scores_gamma_witness :
  TransE example_model [[ [1; 0] ]] [[ [0; 1] ]] [[ [1 + 0; 0 + 1] ]] "tail-batch"
  = Ok [[gamma example_model]].
Proof.
  apply (perfect_translation_scores_gamma
           example_model [1; 0] [0; 1] [1 + 0; 0 + 1] "tail-batch");
    reflexivity.
Defined.

(** ** Candidates scored in a batch *)

Lemma mop_singleton_l (f : R -> R -> R) (a : vec) (ts : tensor2) :
  mop f [a] ts = mapM (vop f a) ts.
Proof.
  unfold mop, broadcast.
  destruct (Nat.eqb_spec (List.length [a]) (List.length ts)) as [Hl|Hl];
    [|reflexivity].
  destruct ts as [|t [|t' ts]]; try discriminate. reflexivity.
Qed.

Lemma mop_singleton_r (f : R -> R -> R) (hs : tensor2) (b : vec) :
  mop f hs [b] = mapM (fun h => vop f h b) hs.
Proof.
  unfold mop, broadcast.
  destruct (Nat.eqb_spec (List.length hs) (List.length [b])) as [Hl|Hl].
  - destruct hs as [|h [|h' hs]]; try discriminate. reflexivity.
  - destruct hs as [|h [|h' hs]]; simpl in Hl; try congruence; reflexivity.
Qed.

Lemma mapM_ext_in {A B : Type} (f g : A -> result B) (xs : list A) :
  (forall x, In x xs -> f x = g x) -> mapM f xs = mapM g xs.
Proof.
  induction xs as [|x xs IH]; intros Hfg; [reflexivity|].
  cbn [mapM]. rewrite (Hfg x) by now left.
  rewrite IH by (intros y Hy; apply Hfg; now right). reflexivity.
Qed.

Lemma top_row_r (f : R -> R -> R) (a : vec) (ts : tensor2) :
  Forall (fun t => List.length t = List.length a) ts ->
  top f [[a]] [ts] = Ok [map (zip_with f a) ts].
Proof.
  intros Hw. unfold top, broadcast. cbn [List.length Nat.eqb mapM2].
  fold (mop f). rewrite mop_singleton_l.
  rewrite (mapM_ext_in _ (fun t => Ok (zip_with f a t))), mapM_pure;
    [reflexivity|].
  rewrite Forall_forall in Hw. intros t Ht.
  apply vop_same_length. symmetry. apply Hw, Ht.
Qed.

Lemma top_row_l (f : R -> R -> R) (hs : tensor2) (b : vec) :
  Forall (fun h => List.length h = List.length b) hs ->
  top f [hs] [[b]] = Ok [map (fun h => zip_with f h b) hs].
Proof.
  intros Hw. unfold top, broadcast. cbn [List.length Nat.eqb mapM2].
  fold (mop f). rewrite mop_singleton_r.
  rewrite (mapM_ext_in _ (fun h => Ok (zip_with f h b))), mapM_pure;
    [reflexivity|].
  rewrite Forall_forall in Hw. intros h Hh.
  apply vop_same_length. apply Hw, Hh.
Qed.

Lemma Forall2_map_r {A B : Type} (P : A -> B -> Prop) (F : A -> B) (xs : list A) :
  (forall x, In x xs -> P x (F x)) -> Forall2 P xs (map F xs).
Proof.
  induction xs as [|x xs IH]; intros HP; [constructor|].
  cbn [map]. constructor; [apply HP; now left|].
  apply IH. intros y Hy. apply HP. now right.
Qed.

Ltac solve_candidates Hcs :=
  eapply Forall_impl; [|exact Hcs]; cbn beta; intros; solve_widths.

Lemma TATransE_tail_row (self : KGEModel) (relation : tensor3)
      (tem : option tensor3) (e v : vec) (cs : tensor2) :
  get_rseq self relation tem = Ok [v] ->
  List.length e = List.length v ->
  Forall (fun c => List.length c = List.length v) cs ->
  TATransE self [[e]] relation tem [cs] "tail-batch"
  = Ok [map (fun c => gamma self
                      - vsum (map Rabs (zip_with Rminus (zip_with Rplus e v) c)))
            cs].
Proof.
  intros Hv He Hcs. unfold TATransE. rewrite Hv, bind_Ok.
  cbn [is_head_batch String.eqb Ascii.eqb Bool.eqb unsqueeze1 map].
  unfold tadd, tsub.
  rewrite top_single_same, bind_Ok by solve_widths.
  rewrite top_row_r, bind_Ok by solve_candidates Hcs.
  unfold gamma_minus, norm1_dim2. cbn [map]. rewrite !map_map. reflexivity.
Qed.

Lemma TATransE_head_row (self : KGEModel) (relation : tensor3)
      (tem : option tensor3) (e v : vec) (cs : tensor2) :
  get_rseq self relation tem = Ok [v] ->
  List.length e = List.length v ->
  Forall (fun c => List.length c = List.length v) cs ->
  TATransE self [cs] relation tem [[e]] "head-batch"
  = Ok [map (fun c => gamma self
                      - vsum (map Rabs (zip_with Rplus c (zip_with Rminus v e))))
            cs].
Proof.
  intros Hv He Hcs. unfold TATransE. rewrite Hv, bind_Ok.
  cbn [is_head_batch String.eqb Ascii.eqb Bool.eqb unsqueeze1 map].
  unfold tadd, tsub.
  rewrite top_single_same, bind_Ok by solve_widths.
  rewrite top_row_l, bind_Ok by solve_candidates Hcs.
  unfold gamma_minus, norm1_dim2. cbn [map]. rewrite !map_map. reflexivity.
Qed.

Lemma TADistMult_tail_row (self : KGEModel) (relation : tensor3)
      (tem : option tensor3) (e v : vec) (cs : tensor2) :
  get_rseq self relation tem = Ok [v] ->
  List.length e = List.length v ->
  Forall (fun c => List.length c = List.length v) cs ->
  TADistMult self [[e]] relation tem [cs] "tail-batch"
  = Ok [map (fun c => vsum (zip_with Rmult (zip_with Rmult e v) c)) cs].
Proof.
  intros Hv He Hcs. unfold TADistMult. rewrite Hv, bind_Ok.
  cbn [is_head_batch String.eqb Ascii.eqb Bool.eqb unsqueeze1 map].
  unfold tmul.
  rewrite top_single_same, bind_Ok by solve_widths.
  rewrite top_row_r, bind_Ok by solve_candidates Hcs.
  unfold sum_dim2. cbn [map]. rewrite !map_map. reflexivity.
Qed.

Lemma TADistMult_head_row (self : KGEModel) (relation : tensor3)
      (tem : option tensor3) (e v : vec) (cs : tensor2) :
  get_rseq self relation tem = Ok [v] ->
  List.length e = List.length v ->
  Forall (fun c => List.length c = List.length v) cs ->
  TADistMult self [cs] relation tem [[e]] "head-batch"
  = Ok [map (fun c => vsum (zip_with Rmult c (zip_with Rmult v e))) cs].
Proof.
  intros Hv He Hcs. unfold TADistMult. rewrite Hv, bind_Ok.
  cbn [is_head_batch String.eqb Ascii.eqb Bool.eqb unsqueeze1 map].
  unfold tmul.
  rewrite top_single_same, bind_Ok by solve_widths.
  rewrite top_row_l, bind_Ok by solve_candidates Hcs.
  unfold sum_dim2. cbn [map]. rewrite !map_map. reflexivity.
Qed.

(** X11: for one example whose encoder output is one sequence vector, a
    temporal model scores a row of candidates of the embedding width entry
    by entry as it scores each candidate alone with the same formula: tail
    candidates in tail-batch mode as the triple in 'single' mode, head
    candidates in head-batch mode as the one candidate in head-batch
    mode.  The other candidates of the row have no part in an entry. *)
Theorem batch_scores_each_candidate :
  forall (self : KGEModel) (relation : tensor3) (tem : option tensor3)
         (e v : vec) (cs : tensor2),
    get_rseq self relation tem = Ok [v] ->
    List.length e = List.length v ->
    Forall (fun c => List.length c = List.length v) cs ->
    (exists row,
        TATransE self [[e]] relation tem [cs] "tail-batch" = Ok [row]
        /\ Forall2 (fun c s => TATransE self [[e]] relation tem [[c]] "single"
                               = Ok [[s]]) cs row)
    /\ (exists row,
           TATransE self [cs] relation tem [[e]] "head-batch" = Ok [row]
           /\ Forall2 (fun c s => TATransE self [[c]] relation tem [[e]] "head-batch"
                                  = Ok [[s]]) cs row)
    /\ (exists row,
           TADistMult self [[e]] relation tem [cs] "tail-batch" = Ok [row]
           /\ Forall2 (fun c s => TADistMult self [[e]] relation tem [[c]] "single"
                                  = Ok [[s]]) cs row)
    /\ (exists row,
           TADistMult self [cs] relation tem [[e]] "head-batch" = Ok [row]
           /\ Forall2 (fun c s => TADistMult self [[c]] relation tem [[e]] "head-batch"
                                  = Ok [[s]]) cs row).
Proof.
  intros self relation tem e v cs Hv He Hcs.
  assert (Hin : forall c, In c cs -> List.length c = List.length v)
    by (apply Forall_forall, Hcs).
  repeat split; eexists; split.
  - apply (TATransE_tail_row self relation tem e v cs Hv He Hcs).
  - apply Forall2_map_r. intros c Hc.
    apply (TATransE_one self relation tem e v c "single" Hv He (Hin c Hc)).
  - apply (TATransE_head_row self relation tem e v cs Hv He Hcs).
  - apply Forall2_map_r. intros c Hc.
    apply (TATransE_one self relation tem c v e "head-batch" Hv (Hin c Hc) He).
  - apply (TADistMult_tail_row self relation tem e v cs Hv He Hcs).
  - apply Forall2_map_r. intros c Hc.
    apply (TADistMult_one self relation tem e v c "single" Hv He (Hin c Hc)).
  - apply (TADistMult_head_row self relation tem e v cs Hv He Hcs).
  - apply Forall2_map_r. intros c Hc.
    apply (TADistMult_one self relation tem c v e "head-batch" Hv (Hin c Hc) He).
Qed.

Lemma batch_scores_each_candidate_witness :
  (exists row,
      TATransE example_ta_model [[ [1; 2] ]] [[ [1; 1] ]]
               (Some [[ [1; 0]; [1; 0] ]]) [[ [3; 4]; [5; 6] ]] "tail-batch"
      = Ok [row]
      /\ Forall2 (fun c s => TATransE example_ta_model [[ [1; 2] ]] [[ [1; 1] ]]
                               (Some [[ [1; 0]; [1; 0] ]]) [[c]] "single"
                             = Ok [[s]]) [[3; 4]; [5; 6]] row)
  /\ (exists row,
         TATransE example_ta_model [[ [3; 4]; [5; 6] ]] [[ [1; 1] ]]
                  (Some [[ [1; 0]; [1; 0] ]]) [[ [1; 2] ]] "head-batch"
         = Ok [row]
         /\ Forall2 (fun c s => TATransE example_ta_model [[c]] [[ [1; 1] ]]
                                  (Some [[ [1; 0]; [1; 0] ]]) [[ [1; 2] ]]
                                  "head-batch"
                                = Ok [[s]]) [[3; 4]; [5; 6]] row)
  /\ (exists row,
         TADistMult example_ta_model [[ [1; 2] ]] [[ [1; 1] ]]
                    (Some [[ [1; 0]; [1; 0] ]]) [[ [3; 4]; [5; 6] ]] "tail-batch"
         = Ok [row]
         /\ Forall2 (fun c s => TADistMult example_ta_model [[ [1; 2] ]] [[ [1; 1] ]]
                                  (Some [[ [1; 0]; [1; 0] ]]) [[c]] "single"
                                = Ok [[s]]) [[3; 4]; [5; 6]] row)
  /\ (exists row,
         TADistMult example_ta_model [[ [3; 4]; [5; 6] ]] [[ [1; 1] ]]
                    (Some [[ [1; 0]; [1; 0] ]]) [[ [1; 2] ]] "head-batch"
         = Ok [row]
         /\ Forall2 (fun c s => TADistMult example_ta_model [[c]] [[ [1; 1] ]]
                                  (Some [[ [1; 0]; [1; 0] ]]) [[ [1; 2] ]]
                                  "head-batch"
                                = Ok [[s]]) [[3; 4]; [5; 6]] row).
Proof.
  apply (batch_scores_each_candidate
           example_ta_model [[ [1; 1] ]] (Some [[ [1; 0]; [1; 0] ]])
           [1; 2] [1; 0] [[3; 4]; [5; 6]]).
  - reflexivity.
  - reflexivity.
  - repeat constructor.
Defined.

(** ** The loss: temperature zero and the weighted average *)

Lemma zip_with_map_same {A B C D : Type} (f : B -> C -> D)
      (a : A -> B) (b : A -> C) (l : list A) :
  zip_with f (map a l) (map b l) = map (fun x => f (a x) (b x)) l.
Proof.
  induction l as [|x l IH]; [reflexivity|].
  cbn [map]. rewrite zip_with_cons, IH. reflexivity.
Qed.

Lemma vsum_scale {A : Type} (c : R) (g : A -> R) (l : list A) :
  vsum (map (fun x => c * g x) l) = c * vsum (map g l).
Proof.
  induction l as [|x l IH]; cbn [map vsum fold_right]; [ring|].
  fold (vsum (map (fun x0 => c * g x0) l)) (vsum (map g l)).
  rewrite IH. ring.
Qed.

Lemma vsum_const {A : Type} (l : list A) :
  vsum (map (fun _ => 1) l) = INR (List.length l).
Proof.
  induction l as [|x l IH]; [reflexivity|].
  cbn [map vsum fold_right List.length]. fold (vsum (map (fun _ : A => 1) l)).
  rewrite IH, S_INR. ring.
Qed.

(** X12: over the reals, at adversarial temperature 0 the self-adversarial
    weights are uniform, and on non-empty rows of negatives the
    self-adversarial reduction has the value of the plain mean. *)
Theorem zero_temperature_is_plain_mean :
  forall (args : Args) (negative_score : tensor2),
    adversarial_temperature args = 0 ->
    Forall (fun row => row <> []) negative_score ->
    reduce_negative (with_negative_adversarial_sampling args true) negative_score
    = reduce_negative (with_negative_adversarial_sampling args false) negative_score.
Proof.
  intros args ns Htemp Hrows. unfold reduce_negative.
  cbn [negative_adversarial_sampling adversarial_temperature
       with_negative_adversarial_sampling].
  rewrite Htemp. apply map_ext_in. intros row Hrow.
  rewrite Forall_forall in Hrows. specialize (Hrows row Hrow).
  unfold softmax. rewrite !map_map. rewrite ssum_R, smean_R.
  cbn [of_R smul sexp sdiv sneg detach logsigmoid R_scalar].
  rewrite (map_ext (fun x => exp (x * 0)) (fun _ => 1))
    by (intros x; rewrite Rmult_0_r; apply exp_0).
  change (ssum (map (fun _ : R => 1) row))
    with (vsum (map (fun _ : R => 1) row)).
  rewrite vsum_const, zip_with_map_same.
  rewrite (map_ext (fun x => exp (x * 0) / INR (List.length row)
                             * - ln (1 + exp (- - x)))
                   (fun x => / INR (List.length row)
                             * - ln (1 + exp (- - x))))
    by (intros x; rewrite Rmult_0_r, exp_0; unfold Rdiv; ring).
  rewrite (vsum_scale (/ INR (List.length row))
                      (fun x => - ln (1 + exp (- - x)))), length_map.
  unfold Rdiv. ring.
Qed.

Lemma zero_temperature_is_plain_mean_witness :
  reduce_negative (with_negative_adversarial_sampling example_weighted_args true)
                  [[1; 2]; [3]]
  = reduce_negative (with_negative_adversarial_sampling example_weighted_args false)
                    [[1; 2]; [3]].
Proof.
  apply (zero_temperature_is_plain_mean example_weighted_args [[1; 2]; [3]]).
  - reflexivity.
  - repeat constructor; discriminate.
Defined.

Lemma vsum_positive (v : vec) :
  Forall (fun x => 0 < x) v -> v <> [] -> 0 < vsum v.
Proof.
  intros Hall Hne. destruct v as [|x v]; [contradiction|].
  inversion Hall as [|? ? Hx Hv]; subst.
  assert (Hle : 0 <= vsum v).
  { clear -Hv. induction Hv as [|y v Hy _ IH]; simpl; lra. }
  simpl. fold (vsum v). lra.
Qed.

Lemma positive_weights_nonneg (ws : list R) :
  Forall (fun x => 0 < x) ws -> Forall (fun x => 0 <= x) ws.
Proof. apply Forall_impl. intros x Hx. lra. Qed.

Lemma logsigmoid_terms_nonpos (v : vec) :
  Forall (fun x => x <= 0) (map logsigmoid v).
Proof.
  apply Forall_forall. intros y Hy.
  apply in_map_iff in Hy as [x [<- _]]. left. apply logsigmoid_negative.
Qed.

(** X13: with one positive subsampling weight per example and a coefficient
    of regularization that is not negative, the weighted branch of
    [train_step] returns a loss that is not negative, and neither is its
    positive nor its negative part. *)
Theorem weighted_loss_is_not_negative :
  forall (model : KGEModel) (args : Args)
         (negative_score positive_score : tensor2)
         (subsampling_weight : vec) (n : nat),
    uni_weight args = false ->
    0 <= regularization args ->
    List.length subsampling_weight = n ->
    List.length (squeeze1 positive_score) = n ->
    List.length negative_score = n ->
    (0 < n)%nat ->
    Forall (fun w => 0 < w) subsampling_weight ->
    exists log : TrainLog,
      train_step_loss model args negative_score positive_score subsampling_weight
      = Ok log
      /\ 0 <= positive_sample_loss log
      /\ 0 <= negative_sample_loss log
      /\ 0 <= loss log.
Proof.
  intros model args ns ps w n Huni Hreg Hw Hps Hns Hn Hpos.
  assert (Hwne : w <> []) by (intros ->; simpl in Hw; lia).
  pose proof (vsum_positive w Hpos Hwne) as Hsum.
  assert (Hinv : 0 < / vsum w) by apply Rinv_0_lt_compat, Hsum.
  set (pterms := zip_with Rmult w (squeeze1 (map (map logsigmoid) ps))).
  set (nterms := zip_with Rmult w (reduce_negative args ns)).
  assert (Hp : vsum pterms <= 0).
  { apply vsum_nonpos, weighted_terms_nonpos;
      [apply positive_weights_nonneg, Hpos|].
    rewrite squeeze1_map. apply logsigmoid_terms_nonpos. }
  assert (Hnn : vsum nterms <= 0).
  { apply vsum_nonpos, weighted_terms_nonpos;
      [apply positive_weights_nonneg, Hpos | apply reduce_negative_nonpos]. }
  assert (Hcubes : 0 <= norm_p3 (List.concat (entity_embedding model)) ^ 3
                        + norm_p3 [norm_p3 (List.concat (relation_embedding model))] ^ 3).
  { apply Rplus_le_le_0_compat; apply pow_le, norm_p3_nonneg. }
  unfold train_step_loss. rewrite Huni. unfold weighted_loss.
  rewrite !vop_same_length
    by (rewrite ?squeeze1_map, ?length_map, ?reduce_negative_length; congruence).
  cbn [bind]. fold pterms nterms.
  assert (Hpl : 0 <= - vsum pterms / vsum w) by (unfold Rdiv; nra).
  assert (Hnl : 0 <= - vsum nterms / vsum w) by (unfold Rdiv; nra).
  destruct (Req_dec_T (regularization args) 0.0); eexists;
    (split; [reflexivity|]);
    cbn [positive_sample_loss negative_sample_loss loss];
    repeat split; try assumption; nra.
Qed.

Lemma weighted_loss_is_not_negative_witness :
  exists log : TrainLog,
    train_step_loss example_model example_weighted_args [[0; 1]] [[0]] [2]
    = Ok log
    /\ 0 <= positive_sample_loss log
    /\ 0 <= negative_sample_loss log
    /\ 0 <= loss log.
Proof.
  apply (weighted_loss_is_not_negative example_model example_weighted_args
           [[0; 1]] [[0]] [2] 1%nat).
  - reflexivity.
  - cbn [regularization example_weighted_args]. lra.
  - reflexivity.
  - reflexivity.
  - reflexivity.
  - lia.
  - repeat constructor. lra.
Defined.

(** ** Ranking: what the rank is, and when there is none *)

(** X14: when the true entity is not among the scored candidates, a
    negative id or one past the row, no position of the order matches and
    the assertion of the loop fails. *)
Theorem absent_true_entity_fails_assertion :
  forall (score : vec) (order : list nat) (p : Z),
    argsort_contract score order ->
    (p < 0 \/ Z.of_nat (List.length score) <= p)%Z ->
    rank_log order p = Raise AssertionError.
Proof.
  intros score order p [Hperm _] Hp. unfold rank_log, nonzero.
  rewrite nonzero_from_none; [reflexivity|].
  apply Forall_forall. intros b Hb.
  apply in_map_iff in Hb as [e [<- He]].
  apply (Permutation_in _ Hperm), in_seq in He.
  apply Z.eqb_neq. lia.
Qed.

Lemma absent_true_entity_fails_assertion_witness :
  rank_log [1; 0; 2]%nat 3 = Raise AssertionError.
Proof.
  apply (absent_true_entity_fails_assertion [2; 3; 1] [1; 0; 2]%nat 3%Z).
  - split.
    + apply perm_swap.
    + repeat constructor; simpl; lra.
  - right. simpl. lia.
Defined.

Lemma filter_length_perm {A : Type} (f : A -> bool) (l l' : list A) :
  Permutation l l' -> List.length (filter f l) = List.length (filter f l').
Proof.
  induction 1 as [|x l l' _ IH|x y l|l l' l'' _ IH1 _ IH2]; cbn [filter].
  - reflexivity.
  - destruct (f x); cbn [List.length]; congruence.
  - destruct (f x), (f y); reflexivity.
  - congruence.
Qed.

Lemma filter_all {A : Type} (f : A -> bool) (l : list A) :
  Forall (fun x => f x = true) l -> filter f l = l.
Proof.
  induction 1 as [|x l Hx _ IH]; cbn [filter]; [reflexivity|].
  rewrite Hx, IH. reflexivity.
Qed.

Lemma filter_none {A : Type} (f : A -> bool) (l : list A) :
  Forall (fun x => f x = false) l -> filter f l = [].
Proof.
  induction 1 as [|x l Hx _ IH]; cbn [filter]; [reflexivity|].
  rewrite Hx. exact IH.
Qed.

Lemma StronglySorted_split {A : Type} (Rel : A -> A -> Prop)
      (l1 : list A) (x : A) (l2 : list A) :
  StronglySorted Rel (l1 ++ x :: l2) ->
  Forall (fun a => Rel a x) l1 /\ Forall (Rel x) l2.
Proof.
  induction l1 as [|a l1 IH]; cbn [app]; intros Hs;
    apply StronglySorted_inv in Hs as [Hrest Hall].
  - split; [constructor | exact Hall].
  - destruct (IH Hrest) as [H1 H2]. split; [|exact H2].
    constructor; [|exact H1].
    rewrite Forall_forall in Hall. apply Hall, in_or_app. right. now left.
Qed.

(** In a sorted order of a row without a tie at [x], the candidates before
    [x] are those with a strictly greater score. *)
Lemma position_counts_above (score : vec) (l1 l2 : list nat) (x : nat) :
  argsort_contract score (l1 ++ x :: l2) ->
  untied score x ->
  count_above score x = List.length l1.
Proof.
  intros [Hperm Hsorted] Huntied. unfold count_above.
  rewrite <- (filter_length_perm _ _ _ Hperm).
  assert (Hnd : NoDup (l1 ++ x :: l2)).
  { apply (Permutation_NoDup (Permutation_sym Hperm)), seq_NoDup. }
  pose proof (NoDup_remove_2 _ _ _ Hnd) as Hx.
  apply StronglySorted_split in Hsorted as [Hbefore Hafter].
  rewrite filter_app. cbn [filter].
  rewrite (filter_all _ l1), (filter_none _ l2).
  - unfold above at 1. destruct (Rlt_dec (nth x score 0) (nth x score 0)) as [H|_];
      [lra|]. rewrite app_nil_r. reflexivity.
  - eapply Forall_impl; [|exact Hafter]. cbn beta. intros b Hb.
    unfold above. destruct (Rlt_dec (nth x score 0) (nth b score 0)); [lra|].
    reflexivity.
  - rewrite Forall_forall in Hbefore |- *. intros a Ha.
    specialize (Hbefore a Ha). cbn beta in Hbefore.
    assert (Hrange : (a < List.length score)%nat).
    { assert (Hin : In a (l1 ++ x :: l2)) by (apply in_or_app; now left).
      apply (Permutation_in _ Hperm), in_seq in Hin. lia. }
    assert (Hne : a <> x).
    { intros ->. apply Hx, in_or_app. now left. }
    pose proof (Huntied a Hrange Hne) as Hdiff.
    unfold above. destruct (Rlt_dec (nth x score 0) (nth a score 0)); [|lra].
    reflexivity.
Qed.

(** X15: when no other candidate has the score of the true entity, every
    order the sort may return gives the same metrics: the rank is one more
    than the number of candidates with a strictly greater score. *)
Theorem untied_rank_counts_better :
  forall (score : vec) (order : list nat) (p : Z),
    argsort_contract score order ->
    (0 <= p < Z.of_nat (List.length score))%Z ->
    untied score (Z.to_nat p) ->
    rank_log order p
    = Ok (spec_example_metrics (1 + count_above score (Z.to_nat p))).
Proof.
  intros score order p Hcontract Hp Huntied.
  pose proof Hcontract as [Hperm _].
  assert (Hnd : NoDup order).
  { apply (Permutation_NoDup (Permutation_sym Hperm)), seq_NoDup. }
  assert (Hin : In (Z.to_nat p) order).
  { apply (Permutation_in _ (Permutation_sym Hperm)), in_seq. lia. }
  apply In_nth_error in Hin as [k Hk].
  pose proof Hk as Hsplit.
  apply nth_error_split in Hsplit as (l1 & l2 & Horder & Hlen).
  rewrite Horder in Hcontract.
  rewrite (position_counts_above score l1 l2 (Z.to_nat p) Hcontract Huntied), Hlen.
  apply rank_log_ranked. repeat split; try assumption; try lia.
  replace (1 + k - 1)%nat with k by lia. exact Hk.
Qed.

Lemma untied_rank_counts_better_witness :
  rank_log [1; 0; 2]%nat 0
  = Ok (spec_example_metrics (1 + count_above [2; 3; 1] (Z.to_nat 0))).
Proof.
  apply (untied_rank_counts_better [2; 3; 1] [1; 0; 2]%nat 0%Z).
  - split.
    + apply perm_swap.
    + repeat constructor; simpl; lra.
  - simpl. lia.
  - intros [|[|[|j]]] Hj Hne; simpl in *; try lia; lra.
Defined.

Lemma nonzero_from_bounds (i : nat) (mask : list bool) :
  Forall (fun k => (i <= k < i + List.length mask)%nat) (nonzero_from i mask).
Proof.
  revert i. induction mask as [|b mask IH]; intros i; cbn [nonzero_from];
    [constructor|].
  assert (Hrest : Forall (fun k => (i <= k < i + List.length (b :: mask))%nat)
                         (nonzero_from (S i) mask)).
  { eapply Forall_impl; [|apply IH]. cbn beta. simpl. intros k. lia. }
  destruct b; [constructor; [simpl; lia | exact Hrest] | exact Hrest].
Qed.

Lemma rank_log_rank (order : list nat) (p : Z) (log : Log) :
  rank_log order p = Ok log ->
  exists rank : nat,
    (1 <= rank <= List.length order)%nat /\ log = spec_example_metrics rank.
Proof.
  unfold rank_log.
  pose proof (nonzero_from_bounds
                0 (map (fun e => (Z.of_nat e =? p)%Z) order)) as Hb.
  fold (nonzero (map (fun e => (Z.of_nat e =? p)%Z) order)) in Hb.
  destruct (nonzero (map (fun e => (Z.of_nat e =? p)%Z) order))
    as [|item [|item' rest]]; try discriminate.
  intros [= <-]. exists (1 + item)%nat. split; [|reflexivity].
  inversion Hb as [|? ? Hitem _]; subst. rewrite length_map in Hitem. lia.
Qed.

Lemma inject_nat_one (rank : nat) :
  (inject_Z (Z.of_nat rank) == 1)%Q <-> rank = 1%nat.
Proof.
  unfold Qeq, inject_Z. cbn [Qnum Qden]. lia.
Qed.

Lemma reciprocal_one (rank : nat) :
  (1 <= rank)%nat ->
  (1 / inject_Z (Z.of_nat rank) == 1)%Q <-> rank = 1%nat.
Proof.
  intros Hrank.
  destruct (Z.of_nat rank) as [|q|q] eqn:Hz; try lia.
  unfold Qeq, Qdiv, Qmult, Qinv, inject_Z. cbn [Qnum Qden].
  cbn. lia.
Qed.

(** X16: the metrics the loop records for one example are consistent: the
    rank lies between 1 and the number of candidates, the reciprocal rank
    lies in (0, 1] and is 1 exactly for rank 1, a hit at 1 is recorded
    exactly for rank 1, and a hit at 1 is a hit at 3 and a hit at 3 a hit
    at 10. *)
Theorem example_metrics_are_consistent :
  forall (order : list nat) (p : Z) (log : Log),
    rank_log order p = Ok log ->
    (1 <= MR log)%Q
    /\ (MR log <= inject_Z (Z.of_nat (List.length order)))%Q
    /\ (0 < MRR log)%Q /\ (MRR log <= 1)%Q
    /\ ((MRR log == 1)%Q <-> (MR log == 1)%Q)
    /\ ((HITS_1 log == 1)%Q <-> (MR log == 1)%Q)
    /\ (HITS_1 log <= HITS_3 log)%Q /\ (HITS_3 log <= HITS_10 log)%Q.
Proof.
  intros order p log Hlog.
  apply rank_log_rank in Hlog as (rank & [Hlo Hhi] & ->).
  cbn [spec_example_metrics MRR MR HITS_1 HITS_3 HITS_10].
  assert (Hz : (1 <= Z.of_nat rank)%Z) by lia.
  split; [change 1%Q with (inject_Z 1); rewrite <- Zle_Qle; exact Hz|].
  split; [rewrite <- Zle_Qle; lia|].
  split; [destruct (Z.of_nat rank) as [|q|q]; try lia; reflexivity|].
  split; [destruct (Z.of_nat rank) as [|q|q]; try lia;
          unfold Qle, Qdiv, Qmult, Qinv, inject_Z; simpl; lia|].
  split; [rewrite reciprocal_one, inject_nat_one by exact Hlo; reflexivity|].
  split.
  { rewrite inject_nat_one.
    destruct (Nat.leb_spec rank 1) as [Hle|Hgt]; split; intros Heq;
      try lia; try reflexivity; discriminate Heq. }
  split.
  - destruct (Nat.leb_spec rank 1), (Nat.leb_spec rank 3);
      try lia; unfold Qle; simpl; lia.
  - destruct (Nat.leb_spec rank 3), (Nat.leb_spec rank 10);
      try lia; unfold Qle; simpl; lia.
Qed.

Lemma example_metrics_are_consistent_witness :
  (1 <= MR (spec_example_metrics 2))%Q
  /\ (MR (spec_example_metrics 2)
      <= inject_Z (Z.of_nat (List.length [1; 0; 2]%nat)))%Q
  /\ (0 < MRR (spec_example_metrics 2))%Q
  /\ (MRR (spec_example_metrics 2) <= 1)%Q
  /\ ((MRR (spec_example_metrics 2) == 1)%Q <-> (MR (spec_example_metrics 2) == 1)%Q)
  /\ ((HITS_1 (spec_example_metrics 2) == 1)%Q
      <-> (MR (spec_example_metrics 2) == 1)%Q)
  /\ (HITS_1 (spec_example_metrics 2) <= HITS_3 (spec_example_metrics 2))%Q
  /\ (HITS_3 (spec_example_metrics 2) <= HITS_10 (spec_example_metrics 2))%Q.
Proof.
  apply (example_metrics_are_consistent [1; 0; 2]%nat 0%Z (spec_example_metrics 2)).
  reflexivity.
Defined.

(** ** Evaluation: the logging interval *)

Lemma foldM_raises {A B : Type} (f : A -> B -> result A) (a : A) (xs : list B) :
  (forall a' x, exists e, f a' x = Raise e) -> xs <> [] ->
  exists e, foldM f a xs = Raise e.
Proof.
  intros Hf Hne. destruct xs as [|x rest]; [contradiction|].
  cbn [foldM]. destruct (Hf a x) as [e ->]. now exists e.
Qed.

Lemma test_batch_zero_steps (argsort_descending : vec -> list nat)
      (scoring : TestBatch -> result tensor2) (args : Args)
      (state : list Log * Z) (batch : TestBatch) :
  test_log_steps args = 0%Z ->
  exists e, test_batch argsort_descending scoring args state batch = Raise e.
Proof.
  intros Hsteps. unfold test_batch. destruct state as [logs step].
  destruct (scoring batch) as [score|e]; [|now exists e]. cbn [bind].
  destruct (iadd score (filter_bias batch)) as [biased|e]; [|now exists e].
  cbn [bind].
  destruct (positive_args batch) as [positive_arg|e]; [|now exists e].
  cbn [bind].
  destruct (batch_logs _ positive_arg _) as [new_logs|e]; [|now exists e].
  cbn [bind]. rewrite Hsteps. now exists ZeroDivisionError.
Qed.

(** X17: with a logging interval [test_log_steps] of 0 the evaluation
    returns no metrics as soon as a loader yields a batch: whatever the
    scores, the remainder [step % 0] raises before the first batch is
    done. *)
Theorem zero_log_steps_raises :
  forall (argsort_descending : vec -> list nat)
         (scoring : TestBatch -> result tensor2) (args : Args)
         (test_dataloader_head test_dataloader_tail : list TestBatch),
    test_log_steps args = 0%Z ->
    test_dataloader_head ++ test_dataloader_tail <> [] ->
    exists e : exn,
      test_step_with argsort_descending scoring args
                     test_dataloader_head test_dataloader_tail = Raise e.
Proof.
  intros argsort_descending scoring args heads tails Hsteps Hne.
  unfold test_step_with. cbn [foldM].
  destruct heads as [|b heads].
  - cbn [foldM bind].
    destruct (foldM_raises (test_batch argsort_descending scoring args)
                           ([], 0%Z) tails) as [e He].
    + intros a' x. apply test_batch_zero_steps, Hsteps.
    + exact Hne.
    + rewrite He. now exists e.
  - destruct (foldM_raises (test_batch argsort_descending scoring args)
                           ([], 0%Z) (b :: heads)) as [e He].
    + intros a' x. apply test_batch_zero_steps, Hsteps.
    + discriminate.
    + rewrite He. now exists e.
Qed.

Lemma zero_log_steps_raises_witness :
  exists e : exn,
    test_step_with (fun _ => [1; 0; 2]%nat) (fun _ => Ok [[2; 3; 1]])
                   {| cuda := false; negative_adversarial_sampling := false;
                      adversarial_temperature := 1; uni_weight := true;
                      regularization := 0; test_log_steps := 0 |}
                   [example_head_batch] [example_tail_batch] = Raise e.
Proof.
  apply (zero_log_steps_raises (fun _ => [1; 0; 2]%nat) (fun _ => Ok [[2; 3; 1]])).
  - reflexivity.
  - discriminate.
Defined.

(** ** Construction: what a built model satisfies *)

(** X18: a model the constructor returns has a supported name, a positive
    hidden width, non-negative entity and relation counts, 32 time tokens,
    the range (gamma + 2) / hidden_dim, a modulus exactly for pRotatE, and
    for RotatE entities twice as wide as relations, for ComplEx both twice
    the hidden width. *)
Theorem constructed_model_is_well_formed :
  forall (LSTMModel : Z -> Z -> result (tensor3 -> result tensor3))
         (uniform_ : nat -> Z -> Z -> R -> R -> tensor2)
         (name : string) (nentity nrelation hidden_dim : Z) (gamma0 : R)
         (de dr dt : bool) (m : KGEModel),
    __init__ LSTMModel uniform_ name nentity nrelation hidden_dim gamma0 de dr dt
    = Ok m ->
    model_name m = name /\ In name supported_models
    /\ (0 < hidden_dim)%Z /\ (0 <= nentity)%Z /\ (0 <= nrelation)%Z
    /\ ntem m = 32%Z
    /\ embedding_range m = (gamma0 + 2) / IZR hidden_dim
    /\ (modulus m <> None <-> name = "pRotatE"%string)
    /\ (name = "RotatE"%string ->
        entity_dim m = (hidden_dim * 2)%Z /\ relation_dim m = hidden_dim)
    /\ (name = "ComplEx"%string ->
        entity_dim m = (hidden_dim * 2)%Z /\ relation_dim m = (hidden_dim * 2)%Z).
Proof.
  intros LSTMModel uniform_ name nentity nrelation hidden_dim gamma0 de dr dt m
         Hinit.
  unfold __init__ in Hinit.
  apply bind_inv_Ok in Hinit as (enc & _ & Hinit).
  apply bind_inv_Ok in Hinit as (range & Hrange & Hinit).
  destruct (Z.eqb_spec hidden_dim 0) as [|Hhid]; [discriminate|].
  injection Hrange as <-.
  apply bind_inv_Ok in Hinit as (E & HE & Hinit).
  apply bind_inv_Ok in Hinit as (Rel & HR & Hinit).
  apply bind_inv_Ok in Hinit as (T & _ & Hinit).
  unfold new_table in HE, HR.
  destruct (Z.ltb_spec nentity 0) as [|Hent]; [discriminate|].
  destruct (Z.ltb_spec nrelation 0) as [|Hrel]; [discriminate|].
  cbn [orb] in HE, HR.
  assert (Hpos : (0 < hidden_dim)%Z).
  { destruct de;
      match type of HE with
      | (if (?c <? 0)%Z then _ else _) = _ =>
          destruct (Z.ltb_spec c 0); [discriminate | lia]
      end. }
  clear HE HR.
  destruct (name_in name supported_models) eqn:Hname; cbn [negb] in Hinit;
    [|discriminate].
  apply name_in_spec in Hname.
  assert (Hrange : (gamma0 + 2.0) / IZR hidden_dim = (gamma0 + 2) / IZR hidden_dim)
    by (f_equal; lra).
  assert (Hmod : forall x : R,
             (if String.eqb name "pRotatE" then Some x else None) <> None
             <-> name = "pRotatE"%string).
  { intros x. destruct (String.eqb_spec name "pRotatE") as [Hp|Hp].
    - split; [intros _; exact Hp | discriminate].
    - split; [intros Hc; now contradiction Hc | intros Hc; contradiction]. }
  destruct (String.eqb_spec name "RotatE") as [HRot|HRot];
    destruct (String.eqb_spec name "ComplEx") as [HCom|HCom];
    destruct de, dr; cbn [andb orb negb] in Hinit; try discriminate;
    injection Hinit as <-;
    cbn [model_name ntem embedding_range modulus entity_dim relation_dim];
    repeat split; try assumption; try apply Hmod; try lia;
    try (intros Hc; congruence); congruence.
Qed.

Lemma constructed_model_is_well_formed_witness :
  model_name example_constructed = "RotatE"%string
  /\ In "RotatE"%string supported_models
  /\ (0 < 4)%Z /\ (0 <= 4)%Z /\ (0 <= 2)%Z
  /\ ntem example_constructed = 32%Z
  /\ embedding_range example_constructed = (6 + 2) / IZR 4
  /\ (modulus example_constructed <> None <-> "RotatE"%string = "pRotatE"%string)
  /\ ("RotatE"%string = "RotatE"%string ->
      entity_dim example_constructed = (4 * 2)%Z
      /\ relation_dim example_constructed = 4%Z)
  /\ ("RotatE"%string = "ComplEx"%string ->
      entity_dim example_constructed = (4 * 2)%Z
      /\ relation_dim example_constructed = (4 * 2)%Z).
Proof.
  apply (constructed_model_is_well_formed
           (fun _ _ => Ok (fun t => Ok t)) (fun _ _ _ _ _ => [])
           "RotatE" 4 2 4 6 true false false example_constructed).
  unfold __init__, new_table. cbn [bind Z.eqb Z.ltb Z.mul Pos.mul Z.compare orb].
  destruct (Rle_dec (- ((6 + 2.0) / 4)) ((6 + 2.0) / 4)) as [_|Hbad];
    [reflexivity | exfalso; apply Hbad; lra].
Defined.

(** X19: when the encoder can be built but the hidden width is not
    positive, a count is negative or gamma is below -2, the constructor
    fails before it looks at the model name: with [ZeroDivisionError] for a
    hidden width of 0, and otherwise with a [RuntimeError] of the library,
    from the allocation of a table or from its initialisation.  It never
    answers such a request with a [ValueError] or a model. *)
Theorem numeric_errors_precede_validation :
  forall (LSTMModel : Z -> Z -> result (tensor3 -> result tensor3))
         (uniform_ : nat -> Z -> Z -> R -> R -> tensor2)
         (name : string) (nentity nrelation hidden_dim : Z) (gamma0 : R)
         (de dr dt : bool) (encoder : tensor3 -> result tensor3),
    LSTMModel hidden_dim 1%Z = Ok encoder ->
    (hidden_dim <= 0 \/ nentity < 0 \/ nrelation < 0)%Z \/ gamma0 < -2 ->
    if (hidden_dim =? 0)%Z
    then __init__ LSTMModel uniform_ name nentity nrelation hidden_dim gamma0
                  de dr dt
         = Raise ZeroDivisionError
    else exists msg : string,
        __init__ LSTMModel uniform_ name nentity nrelation hidden_dim gamma0
                 de dr dt
        = Raise (RuntimeError msg).
Proof.
  intros LSTMModel uniform_ name nentity nrelation hidden_dim gamma0 de dr dt
         encoder Hlstm Hbad.
  unfold __init__. rewrite Hlstm, bind_Ok.
  destruct (Z.eqb_spec hidden_dim 0) as [Hz|Hnz]; [reflexivity|].
  rewrite bind_Ok. unfold new_table.
  destruct (Z.ltb_spec nentity 0) as [Hent|Hent];
    [eexists; reflexivity|].
  destruct (Z.ltb_spec (if de then (hidden_dim * 2)%Z else hidden_dim) 0)
    as [Hed|Hed]; [eexists; reflexivity|].
  cbn [orb].
  destruct (Rle_dec (- ((gamma0 + 2.0) / IZR hidden_dim))
                    ((gamma0 + 2.0) / IZR hidden_dim)) as [Hrange|Hrange];
    [|eexists; reflexivity].
  rewrite bind_Ok.
  destruct (Z.ltb_spec nrelation 0) as [Hrel|Hrel];
    [eexists; reflexivity|].
  exfalso.
  assert (Hhid : (0 < hidden_dim)%Z) by (destruct de; lia).
  assert (Hpos : 0 < IZR hidden_dim) by (apply IZR_lt; exact Hhid).
  assert (Hgamma : gamma0 + 2.0
                   = (gamma0 + 2.0) / IZR hidden_dim * IZR hidden_dim)
    by (field; lra).
  destruct Hbad as [Hcount | Hlow]; [lia|]. nra.
Qed.

Lemma numeric_errors_precede_validation_witness :
  (if (0 =? 0)%Z
   then __init__ (fun _ _ => Ok (fun t => Ok t)) (fun _ _ _ _ _ => [])
                 "NoSuchModel" 4 2 0 6 false false false
        = Raise ZeroDivisionError
   else exists msg : string,
       __init__ (fun _ _ => Ok (fun t => Ok t)) (fun _ _ _ _ _ => [])
                "NoSuchModel" 4 2 0 6 false false false
       = Raise (RuntimeError msg))
  /\ (if (4 =? 0)%Z
      then __init__ (fun _ _ => Ok (fun t => Ok t)) (fun _ _ _ _ _ => [])
                    "NoSuchModel" 4 2 4 (-3) false false false
           = Raise ZeroDivisionError
      else exists msg : string,
          __init__ (fun _ _ => Ok (fun t => Ok t)) (fun _ _ _ _ _ => [])
                   "NoSuchModel" 4 2 4 (-3) false false false
          = Raise (RuntimeError msg)).
Proof.
  split.
  - apply (numeric_errors_precede_validation
             (fun _ _ => Ok (fun t => Ok t)) (fun _ _ _ _ _ => [])
             "NoSuchModel" 4 2 0 6 false false false (fun t => Ok t)).
    + reflexivity.
    + left. left. lia.
  - apply (numeric_errors_precede_validation
             (fun _ _ => Ok (fun t => Ok t)) (fun _ _ _ _ _ => [])
             "NoSuchModel" 4 2 4 (-3) false false false (fun t => Ok t)).
    + reflexivity.
    + right. lra.
Defined.

(** ** The regularizer in closed form *)

(** X20: whenever [train_step] computes a loss, the regularization it logs
    is absent for a coefficient of 0 and otherwise the coefficient times
    the sum of the cubed magnitudes of every entry of the entity and of the
    relation table; the time-token table takes no part in it. *)
Theorem regularization_is_sum_of_cubes :
  forall (model : KGEModel) (args : Args)
         (negative_score positive_score : tensor2) (subsampling_weight : vec),
    result_map regularization_log
      (train_step_loss model args negative_score positive_score
                       subsampling_weight)
    = result_map
        (fun _ => if Req_dec_T (regularization args) 0 then None
                  else Some (regularization args
                             * (sum_of_cubes (entity_embedding model)
                                + sum_of_cubes (relation_embedding model))))
        (train_step_loss model args negative_score positive_score
                         subsampling_weight).
Proof.
  intros model args ns ps w.
  destruct (train_step_loss model args ns ps w) as [log|e] eqn:Hlog;
    [|reflexivity].
  cbn [result_map]. f_equal.
  unfold train_step_loss in Hlog.
  apply bind_inv_Ok in Hlog as ([pl nl] & _ & Hlog).
  destruct (Req_dec_T (regularization args) 0.0) as [Hz|Hnz];
    destruct (Req_dec_T (regularization args) 0) as [Hz'|Hnz'];
    try (exfalso; lra); injection Hlog as <-; cbn [regularization_log];
    [reflexivity|].
  unfold sum_of_cubes. rewrite <- !norm_p3_cubed.
  rewrite norm_p3_scalar by apply norm_p3_nonneg.
  simpl pow. reflexivity.
Qed.

(** ** The shape of the positive score *)

Lemma one_candidate_concat {A : Type} (rows : list (list A)) :
  one_candidate rows -> List.length (List.concat rows) = List.length rows.
Proof.
  unfold one_candidate.
  induction 1 as [|row rows Hrow _ IH]; [reflexivity|].
  cbn [List.concat List.length]. rewrite length_app, Hrow, IH. reflexivity.
Qed.

(** X21: whatever the encoder returns, a score that [forward] computes in
    'single' mode has one column, so the [squeeze(dim = 1)] of
    [train_step] yields exactly one number per row of it. *)
Theorem positive_score_squeezes_to_rows :
  forall (self : KGEModel) (sample_triple sample_tem negative_sample : pyval)
         (score : tensor2),
    forward self sample_triple sample_tem negative_sample "single" = Ok score ->
    one_candidate score
    /\ List.length (squeeze1 score) = List.length score.
Proof.
  intros self t tem neg score Hf.
  pose proof (forward_single_one_column self t tem neg score Hf) as Hone.
  split; [exact Hone | apply one_candidate_concat, Hone].
Qed.

Lemma positive_score_squeezes_to_rows_witness :
  one_candidate [[1 * 1 * 3 + (2 * 0 * 4 + 0)]]
  /\ List.length (squeeze1 [[1 * 1 * 3 + (2 * 0 * 4 + 0)]])
     = List.length [[1 * 1 * 3 + (2 * 0 * 4 + 0)]].
Proof.
  apply (positive_score_squeezes_to_rows
           example_ta_model (PIntTensor [[0; 0; 1]%Z]) (PIntTensor [[0; 1]%Z])
           PNone).
  reflexivity.
Defined.

(** ** forward: negatives are scored as corrupted triples *)

Lemma select_row_in_table (table : tensor2) (i : Z) :
  in_table table i = true -> select_row table i = Ok (lookup table i).
Proof. intros Hi. rewrite select_row_spec, Hi. reflexivity. Qed.

Lemma index_select_in_table (table : tensor2) (idx : itensor1) :
  forallb (in_table table) idx = true ->
  index_select table idx = Ok (map (lookup table) idx).
Proof.
  unfold index_select. induction idx as [|i idx IH]; [reflexivity|].
  cbn [forallb mapM map]. intros Hall.
  apply andb_prop in Hall as [Hi Hrest].
  rewrite (select_row_in_table table i Hi), bind_Ok, (IH Hrest). reflexivity.
Qed.

Lemma lookup_width (table : tensor2) (i : Z) (d : nat) :
  Forall (fun row => List.length row = d) table ->
  in_table table i = true -> List.length (lookup table i) = d.
Proof.
  intros Hw Hi. unfold in_table in Hi.
  apply andb_prop in Hi as [Hlo Hhi].
  apply Z.leb_le in Hlo. apply Z.ltb_lt in Hhi.
  rewrite Forall_forall in Hw. apply Hw. unfold lookup. apply nth_In. lia.
Qed.

Section OneExample.

Variable self : KGEModel.
Variables h r t : Z.
Variable tm : itensor1.

Hypothesis relation_known : in_table (relation_embedding self) r = true.
Hypothesis tokens_known : forallb (in_table (tem_embedding self)) tm = true.

Lemma gather_tem_one :
  gather_tem self (PIntTensor [tm])
  = Ok (Some [map (lookup (tem_embedding self)) tm]).
Proof.
  unfold gather_tem. cbn [as_tensor bind mapM].
  rewrite (index_select_in_table _ _ tokens_known). reflexivity.
Qed.

Lemma forward_single_triple (a b : Z) (negative_sample : pyval) :
  in_table (entity_embedding self) a = true ->
  in_table (entity_embedding self) b = true ->
  forward self (PIntTensor [[a; r; b]]) (PIntTensor [tm]) negative_sample "single"
  = model_func self [[lookup (entity_embedding self) a]]
               [[lookup (relation_embedding self) r]]
               (Some [map (lookup (tem_embedding self)) tm])
               [[lookup (entity_embedding self) b]] "single".
Proof.
  intros Ha Hb. unfold forward.
  cbn [String.eqb Ascii.eqb Bool.eqb as_tensor bind column mapM nth_error].
  rewrite !index_select_in_table
    by (cbn [forallb]; rewrite ?Ha, ?Hb, ?relation_known; reflexivity).
  cbn [bind]. rewrite gather_tem_one. reflexivity.
Qed.

Lemma gather_candidates_one (cands : itensor1) :
  cands <> [] ->
  forallb (in_table (entity_embedding self)) cands = true ->
  gather_candidates (entity_embedding self) [cands]
  = Ok [map (lookup (entity_embedding self)) cands].
Proof.
  intros Hne Hc. unfold gather_candidates. cbn [mapM].
  rewrite (index_select_in_table _ _ Hc). cbn [bind forallb List.length].
  destruct cands as [|c cands]; [contradiction | reflexivity].
Qed.

Lemma forward_tail_batch (cands : itensor1) :
  cands <> [] ->
  in_table (entity_embedding self) h = true ->
  forallb (in_table (entity_embedding self)) cands = true ->
  forward self (PIntTensor [[h; r; t]]) (PIntTensor [tm]) (PIntTensor [cands])
          "tail-batch"
  = model_func self [[lookup (entity_embedding self) h]]
               [[lookup (relation_embedding self) r]]
               (Some [map (lookup (tem_embedding self)) tm])
               [map (lookup (entity_embedding self)) cands] "tail-batch".
Proof.
  intros Hne Hh Hc. unfold forward.
  cbn [String.eqb Ascii.eqb Bool.eqb as_tensor as_indexable bind column mapM
       nth_error].
  rewrite !index_select_in_table
    by (cbn [forallb]; rewrite ?Hh, ?relation_known; reflexivity).
  cbn [bind]. rewrite gather_tem_one. cbn [bind].
  rewrite (gather_candidates_one cands Hne Hc). reflexivity.
Qed.

Lemma forward_head_batch (cands : itensor1) :
  cands <> [] ->
  in_table (entity_embedding self) t = true ->
  forallb (in_table (entity_embedding self)) cands = true ->
  forward self (PIntTensor [[h; r; t]]) (PIntTensor [tm]) (PIntTensor [cands])
          "head-batch"
  = model_func self [map (lookup (entity_embedding self)) cands]
               [[lookup (relation_embedding self) r]]
               (Some [map (lookup (tem_embedding self)) tm])
               [[lookup (entity_embedding self) t]] "head-batch".
Proof.
  intros Hne Ht Hc. unfold forward.
  cbn [String.eqb Ascii.eqb Bool.eqb as_tensor as_indexable bind column mapM
       nth_error].
  rewrite (gather_candidates_one cands Hne Hc). cbn [bind].
  rewrite !index_select_in_table
    by (cbn [forallb]; rewrite ?Ht, ?relation_known; reflexivity).
  cbn [bind]. rewrite gather_tem_one. reflexivity.
Qed.

End OneExample.

Lemma forallb_in {A : Type} (f : A -> bool) (l : list A) (x : A) :
  forallb f l = true -> In x l -> f x = true.
Proof. intros Hall Hin. rewrite forallb_forall in Hall. apply Hall, Hin. Qed.

(** X22: for a temporal model and one example whose ids are in the tables
    and whose encoder output is one vector of the entity width, [forward]
    in tail-batch mode returns, for each candidate, the score [forward]
    gives in 'single' mode to the triple with that candidate as tail; in
    head-batch mode it returns, for each candidate, the score it gives in
    head-batch mode to that candidate alone. *)
Theorem forward_scores_corrupted_triples :
  forall (self : KGEModel) (h r t : Z) (tm cands : itensor1) (v : vec),
    model_name self = "TATransE"%string \/ model_name self = "TADistMult"%string ->
    cands <> [] ->
    in_table (entity_embedding self) h = true ->
    in_table (relation_embedding self) r = true ->
    in_table (entity_embedding self) t = true ->
    forallb (in_table (tem_embedding self)) tm = true ->
    forallb (in_table (entity_embedding self)) cands = true ->
    Forall (fun row => List.length row = List.length v) (entity_embedding self) ->
    get_rseq self [[lookup (relation_embedding self) r]]
             (Some [map (lookup (tem_embedding self)) tm]) = Ok [v] ->
    (exists row,
        forward self (PIntTensor [[h; r; t]]) (PIntTensor [tm])
                (PIntTensor [cands]) "tail-batch" = Ok [row]
        /\ Forall2 (fun c s =>
                      forward self (PIntTensor [[h; r; c]]) (PIntTensor [tm])
                              PNone "single" = Ok [[s]]) cands row)
    /\ (exists row,
           forward self (PIntTensor [[h; r; t]]) (PIntTensor [tm])
                   (PIntTensor [cands]) "head-batch" = Ok [row]
           /\ Forall2 (fun c s =>
                         forward self (PIntTensor [[h; r; t]]) (PIntTensor [tm])
                                 (PIntTensor [[c]]) "head-batch" = Ok [[s]])
                      cands row).
Proof.
  intros self h r t tm cands v Hname Hne Hh Hr Ht Htm Hc Hw Hv.
  pose proof (lookup_width _ h _ Hw Hh) as Hwh.
  pose proof (lookup_width _ t _ Hw Ht) as Hwt.
  assert (Hwc : Forall (fun c => List.length c = List.length v)
                       (map (lookup (entity_embedding self)) cands)).
  { apply Forall_forall. intros row Hrow.
    apply in_map_iff in Hrow as [c [<- Hin]].
    apply (lookup_width _ c _ Hw), (forallb_in _ _ _ Hc Hin). }
  assert (Hsingle : forall c,
             in_table (entity_embedding self) c = true ->
             forward self (PIntTensor [[h; r; c]]) (PIntTensor [tm]) PNone "single"
             = model_func self [[lookup (entity_embedding self) h]]
                          [[lookup (relation_embedding self) r]]
                          (Some [map (lookup (tem_embedding self)) tm])
                          [[lookup (entity_embedding self) c]] "single")
    by (intros c Hcin; apply forward_single_triple; assumption).
  assert (Halone : forall c,
             in_table (entity_embedding self) c = true ->
             forward self (PIntTensor [[h; r; t]]) (PIntTensor [tm])
                     (PIntTensor [[c]]) "head-batch"
             = model_func self [[lookup (entity_embedding self) c]]
                          [[lookup (relation_embedding self) r]]
                          (Some [map (lookup (tem_embedding self)) tm])
                          [[lookup (entity_embedding self) t]] "head-batch").
  { intros c Hcin.
    apply (forward_head_batch self h r t tm Hr Htm [c]);
      [discriminate | exact Ht | cbn [forallb]; rewrite Hcin; reflexivity]. }
  rewrite (forward_tail_batch self h r t tm Hr Htm cands Hne Hh Hc).
  rewrite (forward_head_batch self h r t tm Hr Htm cands Hne Ht Hc).
  unfold model_func in *.
  destruct Hname as [Hn | Hn]; rewrite Hn in *;
    cbn [String.eqb Ascii.eqb Bool.eqb] in *; split; eexists; split.
  - apply (TATransE_tail_row self _ _ _ v _ Hv Hwh Hwc).
  - rewrite map_map. apply Forall2_map_r. intros c Hin.
    pose proof (forallb_in _ _ _ Hc Hin) as Hcin.
    rewrite (Hsingle c Hcin).
    apply (TATransE_one self _ _ _ v _ "single" Hv Hwh
                        (lookup_width _ c _ Hw Hcin)).
  - apply (TATransE_head_row self _ _ _ v _ Hv Hwt Hwc).
  - rewrite map_map. apply Forall2_map_r. intros c Hin.
    pose proof (forallb_in _ _ _ Hc Hin) as Hcin.
    rewrite (Halone c Hcin).
    apply (TATransE_one self _ _ _ v _ "head-batch" Hv
                        (lookup_width _ c _ Hw Hcin) Hwt).
  - apply (TADistMult_tail_row self _ _ _ v _ Hv Hwh Hwc).
  - rewrite map_map. apply Forall2_map_r. intros c Hin.
    pose proof (forallb_in _ _ _ Hc Hin) as Hcin.
    rewrite (Hsingle c Hcin).
    apply (TADistMult_one self _ _ _ v _ "single" Hv Hwh
                          (lookup_width _ c _ Hw Hcin)).
  - apply (TADistMult_head_row self _ _ _ v _ Hv Hwt Hwc).
  - rewrite map_map. apply Forall2_map_r. intros c Hin.
    pose proof (forallb_in _ _ _ Hc Hin) as Hcin.
    rewrite (Halone c Hcin).
    apply (TADistMult_one self _ _ _ v _ "head-batch" Hv
                          (lookup_width _ c _ Hw Hcin) Hwt).
Qed.

Lemma forward_scores_corrupted_triples_witness :
  (exists row,
      forward example_ta_model (PIntTensor [[0; 0; 1]%Z]) (PIntTensor [[0; 1]%Z])
              (PIntTensor [[1; 2]%Z]) "tail-batch" = Ok [row]
      /\ Forall2 (fun c s =>
                    forward example_ta_model (PIntTensor [[0; 0; c]%Z])
                            (PIntTensor [[0; 1]%Z]) PNone "single" = Ok [[s]])
                 [1; 2]%Z row)
  /\ (exists row,
         forward example_ta_model (PIntTensor [[0; 0; 1]%Z]) (PIntTensor [[0; 1]%Z])
                 (PIntTensor [[1; 2]%Z]) "head-batch" = Ok [row]
         /\ Forall2 (fun c s =>
                       forward example_ta_model (PIntTensor [[0; 0; 1]%Z])
                               (PIntTensor [[0; 1]%Z]) (PIntTensor [[c]])
                               "head-batch" = Ok [[s]])
                    [1; 2]%Z row).
Proof.
  apply (forward_scores_corrupted_triples
           example_ta_model 0%Z 0%Z 1%Z [0; 1]%Z [1; 2]%Z [1; 0]).
  - right. reflexivity.
  - discriminate.
  - reflexivity.
  - reflexivity.
  - reflexivity.
  - reflexivity.
  - reflexivity.
  - repeat constructor.
  - reflexivity.
Defined.
